(** * reddit-vote-remover: discovery, mutation and bookkeeping

    A shallow embedding of [backend/reddit_remover.py] and of the
    standalone script [reddit_vote_remover_simple.py], with the
    properties of the engine proved over it.

    Conventions.
    - Text is a Rocq [string], one [ascii] per character (code points
      below 256).  The check mark and the cross of the progress messages
      appear as their UTF-8 bytes.
    - A Python [set] of identifiers is a [gset string]; iterating it is
      [elements], an enumeration without repetition whose order is not
      tied to the order of insertion.
    - The network, the clock and the progress observer are the outside
      world: every request, sleep and callback invocation is appended
      to a trace, and the answers of the network come from an oracle.
    - Console output under [debug] is not modelled. *)

From Stdlib Require Import QArith Ascii.
From stdpp Require Import base strings list gmap pretty.

Local Open Scope string_scope.
Local Open Scope list_scope.
Set Warnings "-register-all,-clear-no-such-hyp".

(** ** Python string primitives *)

Module Py.

Definition code (c : ascii) : N := N_of_ascii c.

(** [str.isspace] on one character. *)
Definition isspace (c : ascii) : bool :=
  let n := code c in
  (((9 <=? n) && (n <=? 13)) || ((28 <=? n) && (n <=? 32))
   || (n =? 133) || (n =? 160))%N.

(** [str.lower] on one character, for the letters [A]..[Z]. *)
Definition lower (c : ascii) : ascii :=
  let n := code c in
  if ((65 <=? n) && (n <=? 90))%N then ascii_of_N (n + 32) else c.

Definition ascii_eqb (a b : ascii) : bool := bool_decide (a = b).

(** [c in s] for a one-character [c]. *)
Fixpoint contains (c : ascii) (s : string) : bool :=
  match s with
  | EmptyString => false
  | String a s' => ascii_eqb a c || contains c s'
  end.

(** [s.lstrip()], [s.rstrip()] and [s.strip()]. *)
Fixpoint lstrip (s : string) : string :=
  match s with
  | String a s' => if isspace a then lstrip s' else s
  | EmptyString => EmptyString
  end.

Fixpoint rstrip (s : string) : string :=
  match s with
  | EmptyString => EmptyString
  | String a s' =>
      match rstrip s' with
      | EmptyString => if isspace a then EmptyString else String a EmptyString
      | r => String a r
      end
  end.

Definition strip (s : string) : string := rstrip (lstrip s).

(** [s.split(c)]: every occurrence of [c] separates two pieces. *)
Fixpoint split (c : ascii) (s : string) : list string :=
  match s with
  | EmptyString => [EmptyString]
  | String a s' =>
      if ascii_eqb a c then EmptyString :: split c s'
      else match split c s' with
           | p :: ps => String a p :: ps
           | [] => [String a EmptyString]
           end
  end.

(** [s.split(c, 1)]: the text before the first [c] and the text after
    it, or [s] alone when [c] does not occur. *)
Fixpoint split1 (c : ascii) (s : string) : string * option string :=
  match s with
  | EmptyString => (EmptyString, None)
  | String a s' =>
      if ascii_eqb a c then (EmptyString, Some s')
      else let '(k, v) := split1 c s' in (String a k, v)
  end.

(** [s.startswith(p)]. *)
Fixpoint startswith (p s : string) : bool :=
  match p, s with
  | EmptyString, _ => true
  | String a p', String b s' => ascii_eqb a b && startswith p' s'
  | String _ _, EmptyString => false
  end.

Fixpoint take (n : nat) (s : string) : string :=
  match n, s with
  | S n', String a s' => String a (take n' s')
  | _, _ => EmptyString
  end.

Fixpoint drop (n : nat) (s : string) : string :=
  match n, s with
  | S n', String _ s' => drop n' s'
  | _, _ => s
  end.

(** [s.replace(old, new)] for a non-empty [old]: occurrences are
    replaced from the left and do not overlap. *)
Fixpoint replace_from (old new : string) (skip : nat) (s : string) : string :=
  match s with
  | EmptyString => EmptyString
  | String a s' =>
      match skip with
      | S k => replace_from old new k s'
      | O =>
          if startswith old s
          then new +:+ replace_from old new (String.length old - 1) s'
          else String a (replace_from old new 0 s')
      end
  end.

Definition replace (old new s : string) : string := replace_from old new 0 s.

(** Truth value of a [str] and of an [Optional[str]]. *)
Definition truthy_str (s : string) : bool :=
  match s with EmptyString => false | _ => true end.

Definition truthy_opt (o : option string) : bool :=
  match o with Some s => truthy_str s | None => false end.

End Py.

(** ** The credential adapter *)

(** The session's cookie jar.  Every cookie the remover stores is bound
    to the one domain [.reddit.com], so the jar is a map from cookie
    name to value; [cookies.set] inserts or overwrites and
    [cookies.get] looks up. *)
Abbreviation cookie_jar := (gmap string string).

Definition cookies_set (key value : string) (jar : cookie_jar) : cookie_jar :=
  <[key := value]> jar.

Definition cookies_get (key : string) (jar : cookie_jar) : option string :=
  jar !! key.

(** The body of the [for] loop of [_set_cookies] on one piece.  A
    piece that has an equals sign keeps it when trimmed, so the
    unpacking of [split("=", 1)] always finds two parts; the last
    branch is never taken. *)
Definition set_cookie_piece (jar : cookie_jar) (cookie : string) : cookie_jar :=
  if negb (Py.contains "=" cookie) then jar
  else
    match Py.split1 "=" (Py.strip cookie) with
    | (key, Some value) => cookies_set (Py.strip key) (Py.strip value) jar
    | (_, None) => jar
    end.

Definition _set_cookies (cookie_string : string) (jar : cookie_jar) : cookie_jar :=
  foldl set_cookie_piece jar (Py.split ";" cookie_string).

(** ** Regular expressions

    The fragment of Python's [re] that the three patterns of the
    remover use, with the semantics of its backtracking matcher: ordered
    alternation, greedy repetition, one capturing group, and the
    leftmost match at each search. *)

Module Re.

Inductive re :=
| Eps
| Chr (p : ascii -> bool)
| Cat (r1 r2 : re)
| Alt (r1 r2 : re)
| Star (r : re)
| Group (r : re).

Definition Plus (r : re) : re := Cat r (Star r).

(** What a successful match yields: group 1, if it took part, and the
    text left after the match. *)
Definition result : Type := option string * string.

(** [matches r s cap k]: match [r] at the head of [s], then continue
    with [k] on the rest; on failure of [k] fall back to the next
    alternative. *)
Fixpoint matches (r : re) (s : string) (cap : option string)
    (k : string -> option string -> option result) : option result :=
  match r with
  | Eps => k s cap
  | Chr p =>
      match s with
      | String c s' => if p c then k s' cap else None
      | EmptyString => None
      end
  | Cat r1 r2 => matches r1 s cap (fun s1 cap1 => matches r2 s1 cap1 k)
  | Alt r1 r2 =>
      match matches r1 s cap k with
      | Some x => Some x
      | None => matches r2 s cap k
      end
  | Star r1 =>
      (fix loop (n : nat) (s : string) (cap : option string) : option result :=
         match n with
         | O => k s cap
         | S n' =>
             match
               matches r1 s cap (fun s1 cap1 =>
                 if (String.length s1 <? String.length s)%nat
                 then loop n' s1 cap1 else None)
             with
             | Some x => Some x
             | None => k s cap
             end
         end) (String.length s) s cap
  | Group r1 =>
      matches r1 s cap (fun s1 _ =>
        k s1 (Some (Py.take (String.length s - String.length s1) s)))
  end.

(** A match anchored at the head of [s]. *)
Definition match_here (r : re) (s : string) : option result :=
  matches r s None (fun rest cap => Some (cap, rest)).

(** [pattern.findall(s)] for a pattern with one group: group 1 of the
    leftmost matches, which do not overlap.  [skip] counts the
    characters of the last match still to be passed over. *)
Fixpoint findall_from (r : re) (skip : nat) (s : string) : list string :=
  match skip with
  | S k =>
      match s with
      | String _ s' => findall_from r k s'
      | EmptyString => []
      end
  | O =>
      match match_here r s with
      | Some (cap, rest) =>
          let g := default EmptyString cap in
          match s with
          | String _ s' =>
              g :: findall_from r (String.length s - String.length rest - 1) s'
          | EmptyString => [g]
          end
      | None =>
          match s with
          | String _ s' => findall_from r 0 s'
          | EmptyString => []
          end
      end
  end.

Definition findall (r : re) (s : string) : list string := findall_from r 0 s.

(** The first match of [pattern.finditer(s)]: the leftmost one. *)
Fixpoint search (r : re) (s : string) : option result :=
  match match_here r s with
  | Some x => Some x
  | None =>
      match s with
      | String _ s' => search r s'
      | EmptyString => None
      end
  end.

(** Character tests; [re.I] compares lower-cased characters. *)
Definition is_chr (c : ascii) : ascii -> bool := fun x => Py.ascii_eqb x c.
Definition is_chr_i (c : ascii) : ascii -> bool :=
  fun x => Py.ascii_eqb (Py.lower x) (Py.lower c).
Definition one_of (cs : list ascii) : ascii -> bool :=
  fun x => existsb (Py.ascii_eqb x) cs.
Definition none_of (cs : list ascii) : ascii -> bool :=
  fun x => negb (existsb (Py.ascii_eqb x) cs).
Definition alnum_i : ascii -> bool :=
  fun x => let n := Py.code (Py.lower x) in
           (((97 <=? n) && (n <=? 122)) || ((48 <=? n) && (n <=? 57)))%N.

(** A literal text under [re.I]. *)
Fixpoint lit_i (s : string) : re :=
  match s with
  | EmptyString => Eps
  | String c s' => Cat (Chr (is_chr_i c)) (lit_i s')
  end.

End Re.

Definition dquote : ascii := ascii_of_N 34.
Definition squote : ascii := ascii_of_N 39.

(** r'(?:id|post-id|data-ks-id)="(t3_[a-z0-9]+)"' with [re.I] *)
Definition POST_ID_PATTERN : Re.re :=
  Re.Cat (Re.Alt (Re.lit_i "id") (Re.Alt (Re.lit_i "post-id") (Re.lit_i "data-ks-id")))
    (Re.Cat (Re.Chr (Re.is_chr_i "="))
       (Re.Cat (Re.Chr (Re.is_chr_i dquote))
          (Re.Cat (Re.Group (Re.Cat (Re.lit_i "t3_") (Re.Plus (Re.Chr Re.alnum_i))))
             (Re.Chr (Re.is_chr_i dquote))))).

(** r'(?:after=|"after":\s*")([^"&]+)' with [re.I] *)
Definition AFTER_PATTERN : Re.re :=
  Re.Cat
    (Re.Alt (Re.lit_i "after=")
       (Re.Cat (Re.Chr (Re.is_chr_i dquote))
          (Re.Cat (Re.lit_i "after")
             (Re.Cat (Re.Chr (Re.is_chr_i dquote))
                (Re.Cat (Re.Chr (Re.is_chr_i ":"))
                   (Re.Cat (Re.Star (Re.Chr Py.isspace))
                      (Re.Chr (Re.is_chr_i dquote))))))))
    (Re.Group (Re.Plus (Re.Chr (Re.none_of [dquote; "&"%char])))).

(** ** Data model *)

Inductive VoteType := UPVOTED | DOWNVOTED.

Definition VoteType_value (t : VoteType) : string :=
  match t with UPVOTED => "upvoted" | DOWNVOTED => "downvoted" end.

Inductive VoteState := UP | DOWN | NONE.

Definition VoteState_value (v : VoteState) : string :=
  match v with UP => "UP" | DOWN => "DOWN" | NONE => "NONE" end.

(** A decoded JSON document, as a Python value.  The items of an
    object are in document order; a later duplicate of a key wins. *)
Inductive json :=
| JNull
| JBool (b : bool)
| JNum (n : Q)
| JStr (s : string)
| JArr (items : list json)
| JObj (items : list (string * json)).

(** Truth value of a Python value. *)
Definition truthy (v : json) : bool :=
  match v with
  | JNull => false
  | JBool b => b
  | JNum n => negb (Qeq_bool n 0)
  | JStr s => Py.truthy_str s
  | JArr items => match items with [] => false | _ => true end
  | JObj items => match items with [] => false | _ => true end
  end.

Fixpoint lookup_item (key : string) (items : list (string * json)) : option json :=
  match items with
  | [] => None
  | (k, v) :: rest =>
      match lookup_item key rest with
      | Some v' => Some v'
      | None => if bool_decide (k = key) then Some v else None
      end
  end.

(** [d.get(key, default)]; [None] when [d] has no method [get]
    (an [AttributeError]). *)
Definition dict_get (d : json) (key : string) (default_value : json) : option json :=
  match d with
  | JObj items => Some (default default_value (lookup_item key items))
  | _ => None
  end.

Inductive request :=
| GET (url : string) (params : list (string * string)) (accept : option string)
| POST (url : string) (payload : json).

Record response := {
  status_code : Z;
  text : string;
  json_body : option json   (* [None]: [response.json()] raises *)
}.

(** Removal statistics, and the fields a per-item event adds to them. *)
Record stats := { total : nat; removed : nat; failed : nat }.

Record item_fields := { post_id : string; url : string; success : bool }.

Record progress_event := {
  message : string;
  status : string;
  ev_stats : stats;
  ev_item : option item_fields
}.

(** A progress callback; [false] stands for a call that raises. *)
Definition ProgressCallback : Type := progress_event -> bool.

Inductive io_event :=
| Request (r : request)
| Sleep (seconds : Q)
| Progress (ev : progress_event)
| VoteCall (post_id : string) (state : VoteState) (ret : json).

(** The outside world.  [network n r] answers the request [r] made
    after [n] earlier ones, [None] when the call raises (time-out,
    connection error).  [accept_header] is the session's mutable
    [Accept] header. *)
Record world := {
  network : nat -> request -> option response;
  accept_header : option string;
  requests_made : nat;
  trace : list io_event
}.

Definition log (e : io_event) (w : world) : world :=
  {| network := network w; accept_header := accept_header w;
     requests_made := requests_made w; trace := trace w ++ [e] |}.

Definition set_accept (a : option string) (w : world) : world :=
  {| network := network w; accept_header := a;
     requests_made := requests_made w; trace := trace w |}.

(** ** Effects *)

Inductive outcome (A : Type) :=
| Returned (a : A)
| Raised          (* an exception leaves the call *)
| Unfinished.     (* the loop was cut before it ended *)
Arguments Returned {A} a.
Arguments Raised {A}.
Arguments Unfinished {A}.

Definition M (A : Type) : Type := world -> outcome A * world.

Definition ret {A} (a : A) : M A := fun w => (Returned a, w).

Definition bind {A B} (m : M A) (k : A -> M B) : M B :=
  fun w =>
    match m w with
    | (Returned a, w') => k a w'
    | (Raised, w') => (Raised, w')
    | (Unfinished, w') => (Unfinished, w')
    end.

(** [try: m  except Exception: h] *)
Definition catch {A} (m : M A) (h : M A) : M A :=
  fun w =>
    match m w with
    | (Raised, w') => h w'
    | r => r
    end.

Notation "x <~ m ;; k" := (bind m (fun x => k))
  (at level 100, m at next level, right associativity).
Notation "m ;;; k" := (bind m (fun _ => k))
  (at level 100, right associativity).

Definition emit (e : io_event) : M unit := fun w => (Returned tt, log e w).

Definition send (r : request) : M (option response) :=
  fun w =>
    (Returned (network w (requests_made w) r),
     {| network := network w; accept_header := accept_header w;
        requests_made := S (requests_made w); trace := trace w ++ [Request r] |}).

(** [session.get(url, params=params, timeout=10)] *)
Definition session_get (url : string) (params : list (string * string))
  : M (option response) :=
  fun w => send (GET url params (accept_header w)) w.

(** [session.post(url, json=payload, timeout=10)] *)
Definition session_post (url : string) (payload : json) : M (option response) :=
  send (POST url payload).

(** [time.sleep(seconds)]: a [ValueError] for a negative length. *)
Definition time_sleep (seconds : Q) : M unit :=
  fun w => if Qle_bool 0 seconds then emit (Sleep seconds) w else (Raised, w).

(** [max(a, b)]: [b] when [b > a], else [a]. *)
Definition py_max (a b : Q) : Q := if Qle_bool b a then a else b.

(** The literal [0.3]. *)
Definition pacing : Q := 3 # 10.

(** ** The remover (backend/reddit_remover.py) *)

Definition BASE_URL : string := "https://www.reddit.com".
Definition graphql_url : string := BASE_URL +:+ "/svc/shreddit/graphql".

Record RedditVoteRemover := {
  cookies : cookie_jar;
  csrf_token : option string
}.

(** [__init__(cookies, session)]: [session_cookies] is the jar of the
    session the remover is built on, empty for a fresh session.
    [_configure_session] sets the [Accept] header among the fixed ones. *)
Definition __init__ (cookie_string : string) (session_cookies : cookie_jar)
  : M RedditVoteRemover :=
  fun w =>
    let jar := _set_cookies cookie_string session_cookies in
    (Returned {| cookies := jar; csrf_token := cookies_get "csrf_token" jar |},
     set_accept (Some "application/json") w).

(** [_send_progress(callback, message, status, stats)]; an exception of
    the callback is swallowed. *)
Definition _send_progress (callback : option ProgressCallback)
    (message status : string) (st : stats) (item : option item_fields) : M unit :=
  match callback with
  | None => ret tt
  | Some cb =>
      let ev := {| message := message; status := status;
                   ev_stats := st; ev_item := item |} in
      emit (Progress ev) ;;;
      if cb ev then ret tt else ret tt
  end.

Definition vote_payload (post_id : string) (vote_state : VoteState) (token : string) : json :=
  JObj [("operation", JStr "UpdatePostVoteState");
        ("variables",
          JObj [("input", JObj [("postId", JStr post_id);
                                ("voteState", JStr (VoteState_value vote_state))])]);
        ("csrf_token", JStr token)].

(** [result.get("data", {}).get("updatePostVoteState", {}).get("ok", False)] *)
Definition ok_of (result : json) : option json :=
  d ← dict_get result "data" (JObj []);
  u ← dict_get d "updatePostVoteState" (JObj []);
  dict_get u "ok" (JBool false).

(** [_vote(post_id, vote_state)].  The call and the value it returns
    are recorded in the trace as it returns. *)
Definition _vote (self : RedditVoteRemover) (post_id : string) (vote_state : VoteState)
  : M json :=
  r <~ (if negb (Py.truthy_opt (csrf_token self)) then ret (JBool false)
        else
          resp <~ session_post graphql_url
                    (vote_payload post_id vote_state (default "" (csrf_token self))) ;;
          match resp with
          | None => ret (JBool false)
          | Some rsp =>
              match json_body rsp with
              | None => ret (JBool false)
              | Some result => ret (default (JBool false) (ok_of result))
              end
          end) ;;
  emit (VoteCall post_id vote_state r) ;;;
  ret r.

Definition voted_url (username : string) (vote_type : VoteType) : string :=
  BASE_URL +:+ "/user/" +:+ username +:+ "/" +:+ VoteType_value vote_type +:+ "/".

Definition more_posts_url (vote_type : VoteType) : string :=
  BASE_URL +:+ "/svc/shreddit/profiles/profile_" +:+ VoteType_value vote_type
    +:+ "-more-posts/new/".

Definition html_accept : string :=
  "text/html,application/xhtml+xml,application/xml;q=0.9,*/*;q=0.8".

(** [response.raise_for_status()] raises for a status in 400..599. *)
Definition raises_for_status (r : response) : bool :=
  ((400 <=? status_code r) && (status_code r <? 600))%Z.

(** [set(POST_ID_PATTERN.findall(html))] *)
Definition page_post_ids (html : string) : gset string :=
  list_to_set (Re.findall POST_ID_PATTERN html).

(** [after_matches[0].replace("%3D", "=") if after_matches else None] *)
Definition page_next_after (html : string) : option string :=
  match Re.findall AFTER_PATTERN html with
  | m :: _ => Some (Py.replace "%3D" "=" m)
  | [] => None
  end.

(** [not next_after or next_after == after or not post_ids] *)
Definition should_break (next_after after : option string) (post_ids : gset string) : bool :=
  negb (Py.truthy_opt next_after)
  || bool_decide (next_after = after)
  || bool_decide (post_ids = ∅).

(** One turn of the [while True] loop of [_get_voted_posts]: either the
    function is left with a result, or the loop goes on with a new
    cursor and the identifiers accumulated. *)
Inductive page_step :=
| Done (ids : gset string)
| Next (after : option string) (all_post_ids : gset string).

Definition fetch_page (username : string) (vote_type : VoteType)
    (after : option string) (all_post_ids : gset string) : M page_step :=
  let url := if Py.truthy_opt after then more_posts_url vote_type
             else voted_url username vote_type in
  let params := if Py.truthy_opt after
                then [("after", default "" after); ("name", username)] else [] in
  resp <~ session_get url params ;;
  match resp with
  | None => ret (Done all_post_ids)
  | Some r =>
      if (status_code r =? 404)%Z then ret (Done ∅)
      else if raises_for_status r then ret (Done all_post_ids)
      else
        let html := text r in
        let post_ids := page_post_ids html in
        let all_post_ids := all_post_ids ∪ post_ids in
        let next_after := page_next_after html in
        if should_break next_after after post_ids then ret (Done all_post_ids)
        else catch (time_sleep pacing ;;; ret (Next next_after all_post_ids))
                   (ret (Done all_post_ids))
  end.

Fixpoint pagination (fuel : nat) (username : string) (vote_type : VoteType)
    (after : option string) (all_post_ids : gset string) : M (gset string) :=
  match fuel with
  | O => fun w => (Unfinished, w)
  | S fuel' =>
      st <~ fetch_page username vote_type after all_post_ids ;;
      match st with
      | Done ids => ret ids
      | Next after' all_post_ids' =>
          pagination fuel' username vote_type after' all_post_ids'
      end
  end.

(** [_get_voted_posts(username, vote_type)]; the [Accept] header is
    overridden for the scan and put back by the [finally] clause. *)
Definition _get_voted_posts (fuel : nat) (self : RedditVoteRemover)
    (username : string) (vote_type : VoteType) : M (gset string) :=
  fun w =>
    let original_accept := accept_header w in
    match pagination fuel username vote_type None ∅ (set_accept (Some html_accept) w) with
    | (r, w') =>
        (r, if Py.truthy_opt original_accept then set_accept original_accept w' else w')
    end.

(** The pattern compiled per identifier by the permalink pass, under
    [re.I]: an anchor tag whose [href], in single or double quotes,
    is a path /r/<name>/comments/... that contains the literal
    [re.escape(post_id_short)]; group 1 is the path. *)
Definition permalink_pattern (post_id_short : string) : Re.re :=
  let quote := Re.Chr (Re.one_of [dquote; squote]) in
  let in_quotes := Re.Star (Re.Chr (Re.none_of [dquote; squote])) in
  let in_tag := Re.Star (Re.Chr (Re.none_of [">"%char])) in
  Re.Cat (Re.lit_i "<a") (Re.Cat in_tag (Re.Cat (Re.lit_i "href=") (Re.Cat quote
    (Re.Cat
       (Re.Group
          (Re.Cat (Re.lit_i "/r/") (Re.Cat (Re.Plus (Re.Chr (Re.none_of ["/"%char])))
             (Re.Cat (Re.lit_i "/comments/") (Re.Cat in_quotes
                (Re.Cat (Re.lit_i post_id_short) in_quotes))))))
       (Re.Cat quote (Re.Cat in_tag (Re.Chr (Re.is_chr_i ">"%char)))))))).

(** The body of the resolver's [for post_id in post_ids] loop. *)
Definition resolve_one (html : string) (post_url_map : gmap string string)
    (post_id : string) : gmap string string :=
  let post_id_short := Py.drop 3 post_id in
  match Re.search (permalink_pattern post_id_short) html with
  | Some (cap, _) =>
      let sub_url := default EmptyString cap in
      let sub_url := if Py.startswith "/" sub_url
                     then "https://www.reddit.com" +:+ sub_url else sub_url in
      <[post_id := sub_url]> post_url_map
  | None => post_url_map
  end.

(** The [try] block of [remove_votes] that fills [post_url_map]. *)
Definition resolve_permalinks (username : string) (vote_type : VoteType)
    (post_ids : gset string) : M (gmap string string) :=
  if bool_decide (post_ids ≠ ∅) && Py.truthy_str username then
    first_html_resp <~ session_get (voted_url username vote_type) [] ;;
    match first_html_resp with
    | None => ret ∅
    | Some r =>
        if (status_code r =? 200)%Z
        then ret (foldl (resolve_one (text r)) ∅ (elements post_ids))
        else ret ∅
    end
  else ret ∅.

Definition nominal_state (vote_type : VoteType) : VoteState :=
  match vote_type with UPVOTED => UP | DOWNVOTED => DOWN end.

Definition add_removed (st : stats) : stats :=
  {| total := total st; removed := removed st + 1; failed := failed st |}.

Definition add_failed (st : stats) : stats :=
  {| total := total st; removed := removed st; failed := failed st + 1 |}.

Definition item_message (i : nat) (st : stats) (success : bool) (post_id : string) : string :=
  "[" +:+ pretty i +:+ "/" +:+ pretty (total st) +:+ "] "
    +:+ (if success then "✓" else "✗") +:+ " " +:+ post_id.

(** The body of [for i, post_id in enumerate(post_ids, 1)]. *)
Definition remove_item (self : RedditVoteRemover) (vote_state : VoteState) (delay : Q)
    (progress_callback : option ProgressCallback) (post_url_map : gmap string string)
    (i : nat) (post_id : string) (st : stats) : M stats :=
  _vote self post_id vote_state ;;;
  time_sleep pacing ;;;
  r <~ _vote self post_id NONE ;;
  let success := truthy r in
  let st := if success then add_removed st else add_failed st in
  let message := item_message i st success post_id in
  let url := default ("https://www.reddit.com/comments/" +:+ Py.drop 3 post_id)
                     (post_url_map !! post_id) in
  match progress_callback with
  | Some _ =>
      _send_progress progress_callback message
        (if success then "success" else "error") st
        (Some {| post_id := post_id; url := url; success := success |})
  | None => ret tt
  end ;;;
  (if (i <? total st)%nat then time_sleep (py_max pacing delay) else ret tt) ;;;
  ret st.

Fixpoint remove_items (self : RedditVoteRemover) (vote_state : VoteState) (delay : Q)
    (progress_callback : option ProgressCallback) (post_url_map : gmap string string)
    (i : nat) (post_ids : list string) (st : stats) : M stats :=
  match post_ids with
  | [] => ret st
  | post_id :: rest =>
      st' <~ remove_item self vote_state delay progress_callback post_url_map i post_id st ;;
      remove_items self vote_state delay progress_callback post_url_map (S i) rest st'
  end.

(** [remove_votes] from the point where discovery has returned. *)
Definition remove_discovered (self : RedditVoteRemover) (username : string)
    (vote_type : VoteType) (delay : Q) (progress_callback : option ProgressCallback)
    (post_ids : gset string) : M stats :=
  let vote_state := nominal_state vote_type in
  let st := {| total := size post_ids; removed := 0; failed := 0 |} in
  if bool_decide (post_ids = ∅) then
    _send_progress progress_callback
      ("No " +:+ VoteType_value vote_type +:+ " posts found for @" +:+ username +:+ ".")
      "warning" st None ;;;
    ret st
  else
    _send_progress progress_callback
      ("Processing " +:+ pretty (size post_ids) +:+ " " +:+ VoteType_value vote_type
         +:+ " posts...")
      "info" st None ;;;
    post_url_map <~ catch (resolve_permalinks username vote_type post_ids) (ret ∅) ;;
    st <~ remove_items self vote_state delay progress_callback post_url_map 1
            (elements post_ids) st ;;
    _send_progress progress_callback
      ("Finished " +:+ VoteType_value vote_type +:+ " removal.") "success" st None ;;;
    ret st.

(** [remove_votes(username, vote_type, delay, progress_callback)] *)
Definition remove_votes (fuel : nat) (self : RedditVoteRemover) (username : string)
    (vote_type : VoteType) (delay : Q) (progress_callback : option ProgressCallback)
  : M stats :=
  post_ids <~ _get_voted_posts fuel self username vote_type ;;
  remove_discovered self username vote_type delay progress_callback post_ids.

(** ** The standalone script (reddit_vote_remover_simple.py)

    Its class has the same [_set_cookies], [_vote] and
    [_get_voted_posts]; it is built on a fresh session, and its
    [remove_votes] has no callback and no permalink pass. *)

Module Simple.

Definition __init__ (cookie_string : string) : M RedditVoteRemover :=
  __init__ cookie_string ∅.

Definition remove_item (self : RedditVoteRemover) (vote_state : VoteState) (delay : Q)
    (n : nat) (i : nat) (post_id : string) (counts : nat * nat) : M (nat * nat) :=
  let '(removed, failed) := counts in
  _vote self post_id vote_state ;;;
  time_sleep pacing ;;;
  r <~ _vote self post_id NONE ;;
  let counts := if truthy r then (removed + 1, failed) else (removed, failed + 1) in
  (if (i <? n)%nat then time_sleep delay else ret tt) ;;;
  ret counts.

Fixpoint remove_items (self : RedditVoteRemover) (vote_state : VoteState) (delay : Q)
    (n : nat) (i : nat) (post_ids : list string) (counts : nat * nat) : M (nat * nat) :=
  match post_ids with
  | [] => ret counts
  | post_id :: rest =>
      counts' <~ remove_item self vote_state delay n i post_id counts ;;
      remove_items self vote_state delay n (S i) rest counts'
  end.

Definition remove_discovered (self : RedditVoteRemover) (vote_type : VoteType)
    (delay : Q) (post_ids : gset string) : M stats :=
  let vote_state := nominal_state vote_type in
  if bool_decide (post_ids = ∅) then
    ret {| total := 0; removed := 0; failed := 0 |}
  else
    counts <~ remove_items self vote_state delay (size post_ids) 1
                (elements post_ids) (0, 0) ;;
    ret {| total := size post_ids; removed := counts.1; failed := counts.2 |}.

Definition remove_votes (fuel : nat) (self : RedditVoteRemover) (username : string)
    (vote_type : VoteType) (delay : Q) : M stats :=
  post_ids <~ _get_voted_posts fuel self username vote_type ;;
  remove_discovered self vote_type delay post_ids.


End Simple.

(** ** Vocabulary of the statements *)

(** Projections of a trace. *)
Definition vote_calls (tr : list io_event) : list (string * VoteState * json) :=
  omap (fun e => match e with VoteCall p s r => Some (p, s, r) | _ => None end) tr.

Definition posts (tr : list io_event) : list json :=
  omap (fun e => match e with Request (POST _ payload) => Some payload | _ => None end) tr.

Definition progress_events (tr : list io_event) : list progress_event :=
  omap (fun e => match e with Progress ev => Some ev | _ => None end) tr.


(** Vote calls and sleeps, in the order they happen. *)
Inductive mark :=
| Voted (post_id : string) (state : VoteState)
| Slept (seconds : Q).

Definition marks (tr : list io_event) : list mark :=
  omap (fun e => match e with
                 | VoteCall p s _ => Some (Voted p s)
                 | Sleep d => Some (Slept d)
                 | _ => None
                 end) tr.


(** The schedule "toggle, short pause, clear" per item, with a pause
    of [gap] between consecutive items and none after the last. *)
Definition item_marks (vote_state : VoteState) (post_id : string) : list mark :=
  [Voted post_id vote_state; Slept pacing; Voted post_id NONE].




(** The state of the pagination loop. *)
Record scan := { scan_after : option string; scan_all : gset string; scan_world : world }.

(** The answer to the request that the next turn of the loop makes. *)
Definition page_response (username : string) (vote_type : VoteType) (s : scan)
  : option response :=
  let after := scan_after s in
  let w := scan_world s in
  let url := if Py.truthy_opt after then more_posts_url vote_type
             else voted_url username vote_type in
  let params := if Py.truthy_opt after
                then [("after", default "" after); ("name", username)] else [] in
  network w (requests_made w) (GET url params (accept_header w)).

(** The state after [k] turns, if none of them left the loop. *)
Fixpoint turns (k : nat) (username : string) (vote_type : VoteType) (s : scan)
  : option scan :=
  match k with
  | O => Some s
  | S k' =>
      match fetch_page username vote_type (scan_after s) (scan_all s) (scan_world s) with
      | (Returned (Next after' all'), w') =>
          turns k' username vote_type
            {| scan_after := after'; scan_all := all'; scan_world := w' |}
      | _ => None
      end
  end.

(** The state in which [_get_voted_posts] enters its loop. *)
Definition first_turn (w : world) : scan :=
  {| scan_after := None; scan_all := ∅; scan_world := set_accept (Some html_accept) w |}.

(** The stop conditions as the specification words them: no cursor, a
    cursor equal to the previous one, or no identifier on the page that
    was not seen before. *)
Definition stop_as_specified (next_after after : option string)
    (post_ids seen : gset string) : Prop :=
  next_after = None ∨ next_after = after ∨ post_ids ∖ seen = ∅.

(** The order in which a listing shows its identifiers for the first
    time. *)
Definition first_seen (pages : list string) : list string :=
  remove_dups (concat (map (Re.findall POST_ID_PATTERN) pages)).

(** The identifiers of the vote calls, one entry per pair of calls. *)
Definition visited (tr : list io_event) : list string :=
  omap (fun c => match c with (p, NONE, _) => Some p | _ => None end) (vote_calls tr).





(** ** Worlds to run the remover in *)

Definition quoted (s : string) : string :=
  String dquote (s +:+ String dquote EmptyString).

Definition html_response (status : Z) (html : string) : response :=
  {| status_code := status; text := html; json_body := None |}.

Definition vote_response (ok : json) : response :=
  {| status_code := 200; text := EmptyString;
     json_body := Some (JObj [("data", JObj [("updatePostVoteState", JObj [("ok", ok)])])]) |}.

(** A network that answers the [n]-th request, if it is a GET, with
    the [n]-th entry of [gets] (raising where there is none), and a
    POST with [post_answer n]. *)
Definition scripted (gets : list (option response)) (post_answer : nat -> option response)
  : nat -> request -> option response :=
  fun n r =>
    match r with
    | GET _ _ _ => mjoin (gets !! n)
    | POST _ _ => post_answer n
    end.

Definition initial_world (net : nat -> request -> option response) : world :=
  {| network := net; accept_header := None; requests_made := 0; trace := [] |}.

(** The remover built on a fresh session, and the world after its
    construction. *)
Definition built (cookie_string : string) (net : nat -> request -> option response)
  : RedditVoteRemover * world :=
  match __init__ cookie_string ∅ (initial_world net) with
  | (Returned self, w) => (self, w)
  | (_, w) => ({| cookies := ∅; csrf_token := None |}, w)
  end.

(** A listing of three posts over two pages; the clearing call
    succeeds on every other request. *)
Definition demo_page1 : string :=
  "<a href=" +:+ quoted "/r/pics/comments/abc/title/" +:+ " id=" +:+ quoted "t3_abc"
    +:+ "> <x post-id=" +:+ quoted "t3_def" +:+ "> <y src=" +:+ quoted "/more?after=CUR1%3D&x=1"
    +:+ ">".

Definition demo_page2 : string := "<x id=" +:+ quoted "t3_ghi" +:+ ">".

Definition demo_network : nat -> request -> option response :=
  scripted [Some (html_response 200 demo_page1); Some (html_response 200 demo_page2);
            Some (html_response 200 demo_page1)]
           (fun n => Some (vote_response (JBool (Nat.even n)))).

Definition demo_self : RedditVoteRemover := (built "csrf_token=tok; theme=dark" demo_network).1.
Definition demo_world : world := (built "csrf_token=tok; theme=dark" demo_network).2.


(** What discovery returns in a given world, and the world it leaves. *)
Definition discovered (fuel : nat) (self : RedditVoteRemover) (username : string)
    (vote_type : VoteType) (w : world) : gset string :=
  match (_get_voted_posts fuel self username vote_type w).1 with
  | Returned ids => ids
  | _ => ∅
  end.

Definition after_discovery (fuel : nat) (self : RedditVoteRemover) (username : string)
    (vote_type : VoteType) (w : world) : world :=
  (_get_voted_posts fuel self username vote_type w).2.


(** The world right after the request of the next turn. *)
Definition requested (username : string) (vote_type : VoteType) (s : scan) : world :=
  let after := scan_after s in
  let w := scan_world s in
  let url := if Py.truthy_opt after then more_posts_url vote_type
             else voted_url username vote_type in
  let params := if Py.truthy_opt after
                then [("after", default "" after); ("name", username)] else [] in
  {| network := network w; accept_header := accept_header w;
     requests_made := S (requests_made w);
     trace := trace w ++ [Request (GET url params (accept_header w))] |}.

(** The texts of the pages scanned by the first [k] turns. *)
Fixpoint pages_scanned (k : nat) (username : string) (vote_type : VoteType) (s : scan)
  : list string :=
  match k with
  | O => []
  | S k' =>
      match page_response username vote_type s,
            fetch_page username vote_type (scan_after s) (scan_all s) (scan_world s) with
      | Some r, (Returned (Next after' all'), w') =>
          text r :: pages_scanned k' username vote_type
                      {| scan_after := after'; scan_all := all'; scan_world := w' |}
      | _, _ => []
      end
  end.

(** The [finally] clause of [_get_voted_posts], for a scan started in [w]. *)
Definition restore_accept (w w' : world) : world :=
  if Py.truthy_opt (accept_header w) then set_accept (accept_header w) w' else w'.

(** The stop conditions the loop tests on a page. *)
Definition stop_condition (r : response) (after : option string) : Prop :=
  page_next_after (text r) = None
  ∨ page_next_after (text r) = after
  ∨ page_post_ids (text r) = ∅.


(** The state of the scan started in [w] after [k] turns. *)
Definition scan_after_turns (k : nat) (username : string) (vote_type : VoteType)
    (w : world) : scan :=
  default (first_turn w) (turns k username vote_type (first_turn w)).

(** A listing whose second page is not found. *)
Definition private_network : nat -> request -> option response :=
  scripted [Some (html_response 200 demo_page1); Some (html_response 404 "Not Found")]
           (fun _ => Some (vote_response (JBool true))).

Definition private_world : world := (built "csrf_token=tok" private_network).2.

(** A listing whose second page makes the request raise. *)
Definition flaky_network : nat -> request -> option response :=
  scripted [Some (html_response 200 demo_page1); None]
           (fun _ => Some (vote_response (JBool true))).

Definition flaky_world : world := (built "csrf_token=tok" flaky_network).2.

(** A listing whose second page repeats the post of the first under a
    new cursor, and whose third page is empty. *)
Definition dup_page1 : string := "<x id=" +:+ quoted "t3_a" +:+ "> <y src="
  +:+ quoted "/more?after=c1&x=1" +:+ ">".

Definition dup_page2 : string := "<x id=" +:+ quoted "t3_a" +:+ "> <y src="
  +:+ quoted "/more?after=c2&x=1" +:+ ">".

Definition dup_network : nat -> request -> option response :=
  scripted [Some (html_response 200 dup_page1); Some (html_response 200 dup_page2);
            Some (html_response 200 "<p>no more posts</p>")]
           (fun _ => Some (vote_response (JBool true))).

Definition dup_world : world := (built "csrf_token=tok" dup_network).2.

(** A server that answers by the request alone: the first page and the
    page at cursor [c2] point to cursor [c1], the page at cursor [c1]
    points to cursor [c2]. *)
Definition cyc_page1 : string := "<x id=" +:+ quoted "t3_a" +:+ "> <y src="
  +:+ quoted "/more?after=c1&x=1" +:+ ">".

Definition cyc_page2 : string := "<x id=" +:+ quoted "t3_b" +:+ "> <y src="
  +:+ quoted "/more?after=c2&x=1" +:+ ">".

Definition cyc_network : nat -> request -> option response :=
  fun _ r =>
    match r with
    | GET _ params _ =>
        if bool_decide (snd <$> head params = Some "c1")
        then Some (html_response 200 cyc_page2)
        else Some (html_response 200 cyc_page1)
    | POST _ _ => None
    end.

Definition cyc_world : world := (built "csrf_token=tok" cyc_network).2.



(** The listing of [demo_network] with its two pages exchanged: the
    same posts, met in another order. *)
Definition swapped_page1 : string :=
  "<x id=" +:+ quoted "t3_ghi" +:+ "> <y src=" +:+ quoted "/more?after=CUR1%3D&x=1" +:+ ">".

Definition swapped_page2 : string :=
  "<a href=" +:+ quoted "/r/pics/comments/abc/title/" +:+ " id=" +:+ quoted "t3_abc"
    +:+ "> <x post-id=" +:+ quoted "t3_def" +:+ ">".

Definition swapped_network : nat -> request -> option response :=
  scripted [Some (html_response 200 swapped_page1); Some (html_response 200 swapped_page2);
            Some (html_response 200 swapped_page1)]
           (fun n => Some (vote_response (JBool (Nat.even n)))).

Definition swapped_world : world := (built "csrf_token=tok; theme=dark" swapped_network).2.


(** ** Vocabulary of the further statements *)

(** The requests of a trace. *)
Definition requests (tr : list io_event) : list request :=
  omap (fun e => match e with Request r => Some r | _ => None end) tr.

(** The pauses of a trace. *)
Definition sleeps (tr : list io_event) : list Q :=
  omap (fun e => match e with Sleep d => Some d | _ => None end) tr.



(** The texts a pattern matches, and the texts its group can hold. *)
Inductive re_lang : Re.re -> string -> Prop :=
| lang_eps : re_lang Re.Eps EmptyString
| lang_chr p c : p c = true -> re_lang (Re.Chr p) (String c EmptyString)
| lang_cat r1 r2 s1 s2 :
    re_lang r1 s1 -> re_lang r2 s2 -> re_lang (Re.Cat r1 r2) (s1 +:+ s2)
| lang_alt_l r1 r2 s : re_lang r1 s -> re_lang (Re.Alt r1 r2) s
| lang_alt_r r1 r2 s : re_lang r2 s -> re_lang (Re.Alt r1 r2) s
| lang_star_nil r : re_lang (Re.Star r) EmptyString
| lang_star_cons r s1 s2 :
    re_lang r s1 -> re_lang (Re.Star r) s2 -> re_lang (Re.Star r) (s1 +:+ s2)
| lang_group r s : re_lang r s -> re_lang (Re.Group r) s.

(** The bodies of the groups of a pattern (a group inside a group does
    not count: the outer one is what is kept). *)
Fixpoint groups (r : Re.re) : list Re.re :=
  match r with
  | Re.Eps | Re.Chr _ => []
  | Re.Cat r1 r2 | Re.Alt r1 r2 => groups r1 ++ groups r2
  | Re.Star r1 => groups r1
  | Re.Group r1 => [r1]
  end.

(** Whether every match of the pattern goes through a group. *)
Fixpoint always_captures (r : Re.re) : bool :=
  match r with
  | Re.Eps | Re.Chr _ | Re.Star _ => false
  | Re.Cat r1 r2 => always_captures r1 || always_captures r2
  | Re.Alt r1 r2 => always_captures r1 && always_captures r2
  | Re.Group _ => true
  end.

(** [s.lower()], and [all(p(c) for c in s)]. *)
Fixpoint str_lower (s : string) : string :=
  match s with
  | EmptyString => EmptyString
  | String c s' => String (Py.lower c) (str_lower s')
  end.

Fixpoint str_forall (p : ascii -> bool) (s : string) : bool :=
  match s with
  | EmptyString => true
  | String c s' => p c && str_forall p s'
  end.


Definition permalink_group (post_id_short : string) : Re.re :=
  let in_quotes := Re.Star (Re.Chr (Re.none_of [dquote; squote])) in
  Re.Cat (Re.lit_i "/r/") (Re.Cat (Re.Plus (Re.Chr (Re.none_of ["/"%char])))
    (Re.Cat (Re.lit_i "/comments/") (Re.Cat in_quotes
       (Re.Cat (Re.lit_i post_id_short) in_quotes)))).

(** ** The job entry point (backend/app.py)

    [handle_removal] reads the fields of the request and either
    answers with an error or runs [process], here in the same thread.
    [send_progress] is the callback that relays an event to the
    socket; each of its invocations is a [Progress] entry of the trace.
    What a job emits besides is its result. *)


Inductive job_result :=
| Complete (st : stats)            (* emit('complete', {'stats': st}) *)
| Error (message : string).        (* emit('error', {'message': message}) *)

Definition raise {A} : M A := fun w => (Raised, w).

Definition no_stats : stats := {| total := 0; removed := 0; failed := 0 |}.

Definition all_done_message : string := "âœ“ All done!".

(** [process()] of [handle_removal]. *)
Definition process (fuel : nat) (cookie_string username vote_type : string) (delay : Q)
    (send_progress : ProgressCallback) : M job_result :=
  catch
    (remover <~ __init__ cookie_string ∅ ;;
     result <~ (if bool_decide (vote_type ∈ ["upvotes"; "both"])
                then st <~ remove_votes fuel remover username UPVOTED delay
                             (Some send_progress) ;;
                     ret (Some st)
                else ret None) ;;
     result <~ (if bool_decide (vote_type ∈ ["downvotes"; "both"])
                then st <~ remove_votes fuel remover username DOWNVOTED delay
                             (Some send_progress) ;;
                     ret (Some st)
                else ret result) ;;
     let final_stats := default no_stats result in
     let ev := {| message := all_done_message; status := "success";
                  ev_stats := final_stats; ev_item := None |} in
     emit (Progress ev) ;;;
     if send_progress ev then ret (Complete final_stats) else raise)
    (ret (Error "An error occurred during removal")).


(** ** The command line of the standalone script *)

(** [str.isdigit] on one character below 256: the digits [0]..[9] and
    the superscripts two, three and one. *)
Definition isdigit (c : ascii) : bool :=
  let n := Py.code c in
  (((48 <=? n) && (n <=? 57)) || (n =? 178) || (n =? 179) || (n =? 185))%N.

Definition str_isdigit (s : string) : bool := Py.truthy_str s && str_forall isdigit s.

(** The value of a string of ASCII digits, after [acc]. *)
Fixpoint digits_value (acc : N) (s : string) : option N :=
  match s with
  | EmptyString => Some acc
  | String c s' =>
      let n := Py.code c in
      if ((48 <=? n) && (n <=? 57))%N then digits_value (10 * acc + (n - 48)) s'
      else None
  end.

(** [float(s)] for the strings that reach it in [main], which are
    made of digits and dots: the value of the decimal numeral, or
    [None] for the [ValueError] that a second dot, a superscript digit
    or the lack of any digit causes. *)
Definition py_float (s : string) : option Q :=
  match Py.split1 "." s with
  | (int_part, None) =>
      if Py.truthy_str int_part
      then n ← digits_value 0 int_part; Some (Z.of_N n # 1)
      else None
  | (int_part, Some frac_part) =>
      if Py.truthy_str int_part || Py.truthy_str frac_part
      then n ← digits_value 0 (int_part +:+ frac_part);
           Some (Z.of_N n # Z.to_pos (10 ^ Z.of_nat (String.length frac_part)))
      else None
  end.

Module Cli.

(** [main()], reading its five answers from the lines of [stdin];
    [input] raises [EOFError] when the lines run out. *)
Definition main (fuel : nat) (stdin : list string) : M unit :=
  match stdin with
  | [] => raise
  | line1 :: stdin =>
  let cookie_string := Py.strip line1 in
  if negb (Py.truthy_str cookie_string) then ret tt else
  match stdin with
  | [] => raise
  | line2 :: stdin =>
  let username := Py.replace "u/" EmptyString (Py.strip line2) in
  if negb (Py.truthy_str username) then ret tt else
  match stdin with
  | [] => raise
  | line3 :: stdin =>
  let choice := Py.strip line3 in
  if negb (bool_decide (choice ∈ ["1"; "2"; "3"])) then ret tt else
  match stdin with
  | [] => raise
  | line4 :: stdin =>
  let delay_input := Py.strip line4 in
  match (if Py.truthy_str delay_input
            && str_isdigit (Py.replace "." EmptyString delay_input)
         then py_float delay_input else Some (1 # 2)) with
  | None => raise
  | Some delay =>
  let delay := py_max pacing delay in
  match stdin with
  | [] => raise
  | line5 :: _ =>
  if negb (bool_decide (str_lower line5 = "yes")) then ret tt else
  catch
    (remover <~ Simple.__init__ cookie_string ;;
     (if bool_decide (choice ∈ ["1"; "3"])
      then Simple.remove_votes fuel remover username UPVOTED delay ;;; ret tt
      else ret tt) ;;;
     (if bool_decide (choice ∈ ["2"; "3"])
      then Simple.remove_votes fuel remover username DOWNVOTED delay ;;; ret tt
      else ret tt))
    (ret tt)
  end end end end end end.

End Cli.

(** The statistics a pass returned, and the two passes of a job for
    both vote types over the listing of [demo_network]. *)
Definition returned_stats (r : outcome stats * world) : stats :=
  match r.1 with Returned st => st | _ => no_stats end.

Definition demo_up : outcome stats * world :=
  remove_votes 5 demo_self "bob" UPVOTED (1 # 2) (Some (fun _ => true)) demo_world.

Definition demo_down : outcome stats * world :=
  remove_votes 5 demo_self "bob" DOWNVOTED (1 # 2) (Some (fun _ => true)) demo_up.2.


(** A confirmed run of [main] for the upvotes of [bob]. *)
Definition demo_cli : outcome unit * world :=
  Cli.main 5 ["csrf_token=tok"; "u/bob"; " 1 "; "0.1"; "YES"] (initial_world demo_network).

(** * Properties *)

(** ** Effects: basic equations *)

Lemma bind_returned {A B} (m : M A) (k : A -> M B) w a w' :
  m w = (Returned a, w') -> bind m k w = k a w'.
Proof. intros H. unfold bind. rewrite H. reflexivity. Qed.

Lemma trace_log e w : trace (log e w) = trace w ++ [e].
Proof. reflexivity. Qed.

Lemma time_sleep_nonneg d w :
  Qle_bool 0 d = true -> time_sleep d w = (Returned tt, log (Sleep d) w).
Proof. intros H. unfold time_sleep. rewrite H. reflexivity. Qed.

Lemma time_sleep_negative d w :
  Qle_bool 0 d = false -> time_sleep d w = (Raised, w).
Proof. intros H. unfold time_sleep. rewrite H. reflexivity. Qed.

Lemma pacing_nonneg : Qle_bool 0 pacing = true.
Proof. reflexivity. Qed.



Lemma send_progress_spec cb msg stt st item w :
  _send_progress cb msg stt st item w =
    (Returned tt,
     match cb with
     | Some _ => log (Progress {| message := msg; status := stt;
                                  ev_stats := st; ev_item := item |}) w
     | None => w
     end).
Proof.
  unfold _send_progress. destruct cb as [f|]; [|reflexivity].
  unfold bind, emit. simpl. by destruct (f _).
Qed.

(** ** The mutator *)

(** A vote call always returns; what it adds to the trace is at most
    one POST to the mutation endpoint, then the record of the call. *)
Lemma vote_spec self p vs w :
  ∃ r pre w',
    _vote self p vs w = (Returned r, w')
    ∧ trace w' = trace w ++ pre ++ [VoteCall p vs r]
    ∧ network w' = network w
    ∧ (pre = [] ∨ ∃ payload, pre = [Request (POST graphql_url payload)])
    ∧ (Py.truthy_opt (csrf_token self) = false →
       r = JBool false ∧ pre = [] ∧ requests_made w' = requests_made w).
Proof.
  unfold _vote. destruct (Py.truthy_opt (csrf_token self)) eqn:E; simpl.
  - set (payload := vote_payload p vs (default "" (csrf_token self))).
    unfold bind at 1. unfold bind at 1. unfold session_post, send.
    destruct (network w (requests_made w) (POST graphql_url payload)) as [rsp|] eqn:N;
      [destruct (json_body rsp) as [result|]|];
      (eexists _, [Request (POST graphql_url payload)], _;
       split; [reflexivity|]; unfold log; simpl;
       split; [by rewrite <- app_assoc|];
       split; [reflexivity|]; split; [eauto|done]).
  - eexists (JBool false), [], _. simpl.
    split; [reflexivity|]. split; [reflexivity|]. split; [reflexivity|].
    split; [by left|done].
Qed.

(** ** The orchestrator: one item *)

Lemma vote_calls_app tr1 tr2 : vote_calls (tr1 ++ tr2) = vote_calls tr1 ++ vote_calls tr2.
Proof. apply omap_app. Qed.

Lemma marks_app tr1 tr2 : marks (tr1 ++ tr2) = marks tr1 ++ marks tr2.
Proof. apply omap_app. Qed.

Lemma posts_app tr1 tr2 : posts (tr1 ++ tr2) = posts tr1 ++ posts tr2.
Proof. apply omap_app. Qed.

Lemma progress_events_app tr1 tr2 :
  progress_events (tr1 ++ tr2) = progress_events tr1 ++ progress_events tr2.
Proof. apply omap_app. Qed.




(** What one vote call adds to the trace, seen through the projections. *)
Lemma vote_trace_projections pre :
  (pre = [] ∨ ∃ payload, pre = [Request (POST graphql_url payload)]) →
  vote_calls pre = [] ∧ marks pre = [] ∧ progress_events pre = [].
Proof. intros [->|[payload ->]]; done. Qed.


(** ** The orchestrator: the loop over the items *)






(** ** The orchestrator: a pass after discovery *)


Lemma remove_discovered_empty self username vt delay cb w :
  remove_discovered self username vt delay cb ∅ w =
    (Returned {| total := 0; removed := 0; failed := 0 |},
     match cb with
     | Some _ =>
         log (Progress {| message := "No " +:+ VoteType_value vt +:+ " posts found for @"
                                       +:+ username +:+ ".";
                          status := "warning";
                          ev_stats := {| total := 0; removed := 0; failed := 0 |};
                          ev_item := None |}) w
     | None => w
     end).
Proof.
  unfold remove_discovered. rewrite bool_decide_eq_true_2 by reflexivity.
  rewrite size_empty.
  erewrite bind_returned by apply send_progress_spec. reflexivity.
Qed.


(** ** The standalone script: the loop over the items *)

Lemma simple_remove_item_spec self vs delay n i p a b w :
  ∃ r1 r2 new w',
    Simple.remove_item self vs delay n i p (a, b) w =
      (if (i <? n)%nat && negb (Qle_bool 0 delay) then Raised
       else Returned (if truthy r2 then (a + 1, b) else (a, b + 1)), w')
    ∧ trace w' = trace w ++ new
    ∧ vote_calls new = [(p, vs, r1); (p, NONE, r2)]
    ∧ marks new = item_marks vs p
                  ++ (if (i <? n)%nat && Qle_bool 0 delay then [Slept delay] else [])
    ∧ (Py.truthy_opt (csrf_token self) = false → r2 = JBool false ∧ posts new = []).
Proof.
  destruct (vote_spec self p vs w) as (r1 & pre1 & w1 & V1 & T1 & _ & P1 & C1).
  destruct (vote_spec self p NONE (log (Sleep pacing) w1))
    as (r2 & pre2 & w2 & V2 & T2 & _ & P2 & C2).
  destruct (vote_trace_projections pre1 P1) as (VC1 & MK1 & PE1).
  destruct (vote_trace_projections pre2 P2) as (VC2 & MK2 & PE2).
  set (gap := if (i <? n)%nat && Qle_bool 0 delay then [Sleep delay] else []).
  set (w3 := if (i <? n)%nat && Qle_bool 0 delay then log (Sleep delay) w2 else w2).
  exists r1, r2,
    (pre1 ++ [VoteCall p vs r1] ++ [Sleep pacing] ++ pre2 ++ [VoteCall p NONE r2] ++ gap), w3.
  split.
  { unfold Simple.remove_item.
    rewrite (bind_returned _ _ _ _ _ V1).
    rewrite (bind_returned _ _ _ _ _ (time_sleep_nonneg pacing w1 pacing_nonneg)).
    rewrite (bind_returned _ _ _ _ _ V2).
    unfold w3. destruct (i <? n)%nat; simpl.
    - destruct (Qle_bool 0 delay) eqn:E; simpl.
      + by rewrite (bind_returned _ _ _ _ _ (time_sleep_nonneg _ w2 E)).
      + unfold bind. by rewrite (time_sleep_negative _ w2 E).
    - reflexivity. }
  split.
  { unfold w3, gap. destruct ((i <? n)%nat && Qle_bool 0 delay);
      rewrite ?trace_log, T2, trace_log, T1, <- ?app_assoc; simpl;
      rewrite ?app_nil_r; reflexivity. }
  split. { rewrite !vote_calls_app, VC1, VC2. unfold gap. by destruct (_ && _). }
  split. { rewrite !marks_app, MK1, MK2. unfold gap. by destruct (_ && _). }
  intros Hcsrf. destruct (C1 Hcsrf) as (_ & -> & _). destruct (C2 Hcsrf) as (-> & -> & _).
  split; [reflexivity|]. unfold gap. by destruct (_ && _).
Qed.



(** ** Statistics *)

Lemma remove_votes_after_discovery fuel self username vt delay cb w ids w1 :
  _get_voted_posts fuel self username vt w = (Returned ids, w1) →
  remove_votes fuel self username vt delay cb w =
    remove_discovered self username vt delay cb ids w1.
Proof. intros H. unfold remove_votes. by rewrite (bind_returned _ _ _ _ _ H). Qed.

Lemma simple_remove_votes_after_discovery fuel self username vt delay w ids w1 :
  _get_voted_posts fuel self username vt w = (Returned ids, w1) →
  Simple.remove_votes fuel self username vt delay w =
    Simple.remove_discovered self vt delay ids w1.
Proof. intros H. unfold Simple.remove_votes. by rewrite (bind_returned _ _ _ _ _ H). Qed.



(** ** Calls and pauses of a pass *)





Lemma demo_discovery :
  _get_voted_posts 5 demo_self "bob" UPVOTED demo_world =
    (Returned (discovered 5 demo_self "bob" UPVOTED demo_world),
     after_discovery 5 demo_self "bob" UPVOTED demo_world).
Proof. vm_compute. reflexivity. Defined.


(** ** Pacing *)




(** ** Order of the mutations *)

Lemma visited_app tr1 tr2 : visited (tr1 ++ tr2) = visited tr1 ++ visited tr2.
Proof. unfold visited. rewrite vote_calls_app. apply omap_app. Qed.





(** ** Discovery: one turn of the loop *)

Lemma fetch_page_spec username vt s :
  fetch_page username vt (scan_after s) (scan_all s) (scan_world s) =
    match page_response username vt s with
    | None => (Returned (Done (scan_all s)), requested username vt s)
    | Some r =>
        if (status_code r =? 404)%Z then (Returned (Done ∅), requested username vt s)
        else if raises_for_status r
        then (Returned (Done (scan_all s)), requested username vt s)
        else if should_break (page_next_after (text r)) (scan_after s)
                  (page_post_ids (text r))
        then (Returned (Done (scan_all s ∪ page_post_ids (text r))),
              requested username vt s)
        else (Returned (Next (page_next_after (text r))
                          (scan_all s ∪ page_post_ids (text r))),
              log (Sleep pacing) (requested username vt s))
    end.
Proof.
  unfold fetch_page, page_response, requested, bind, session_get, send.
  destruct (network (scan_world s) _ _) as [r|]; [|reflexivity].
  destruct (status_code r =? 404)%Z; [reflexivity|].
  destruct (raises_for_status r); [reflexivity|].
  destruct (should_break _ _ _); reflexivity.
Qed.

(** ** The cursor pattern never yields an empty cursor *)

Lemma matches_consumes r : ∀ s cap k x,
  Re.matches r s cap k = Some x →
  ∃ s' cap', k s' cap' = Some x ∧ (String.length s' ≤ String.length s)%nat.
Proof.
  induction r as [|p|r1 IH1 r2 IH2|r1 IH1 r2 IH2|r1 IH1|r1 IH1]; intros s cap k x H.
  - simpl in H. eauto.
  - simpl in H. destruct s as [|c s']; [done|]. destruct (p c); [|done].
    exists s', cap. split; [done|]. simpl. lia.
  - simpl in H. apply IH1 in H as (s1 & cap1 & H & L1).
    apply IH2 in H as (s2 & cap2 & H & L2). exists s2, cap2. split; [done|lia].
  - simpl in H. destruct (Re.matches r1 s cap k) eqn:E.
    + inversion H; subst. by apply IH1 in E.
    + by apply IH2 in H.
  - simpl in H. revert H. generalize (String.length s) at 1. intros n.
    revert s cap. induction n as [|n IHn]; intros s cap H.
    + simpl in H. eauto.
    + simpl in H. match type of H with
      | match ?m with _ => _ end = _ => destruct m eqn:E
      end.
      * inversion H; subst. apply IH1 in E as (s1 & cap1 & E & L1).
        destruct (String.length s1 <? String.length s)%nat; [|done].
        apply IHn in E as (s2 & cap2 & E & L2). exists s2, cap2. split; [done|lia].
      * eauto.
  - simpl in H. apply IH1 in H as (s1 & cap1 & H & L1). eauto.
Qed.

Lemma after_group_nonempty s cap rest :
  Re.match_here AFTER_PATTERN s = Some (cap, rest) →
  ∃ g, cap = Some g ∧ Py.truthy_str g = true.
Proof.
  unfold Re.match_here, AFTER_PATTERN. intros H.
  change (Re.matches (Re.Cat ?a ?b) s None ?k)
    with (Re.matches a s None (fun s1 cap1 => Re.matches b s1 cap1 k)) in H.
  apply matches_consumes in H as (s1 & cap1 & H & _).
  simpl in H. destruct s1 as [|c s1']; [done|].
  destruct (Re.none_of _ c); [|done].
  match type of H with
  | ?f (String.length s1') s1' cap1 = _ =>
      change (f (String.length s1') s1' cap1)
        with (Re.matches (Re.Star (Re.Chr (Re.none_of [dquote; "&"%char]))) s1' cap1
                (fun s2 _ =>
                   Some (Some (Py.take (String.length (String c s1') - String.length s2)
                                 (String c s1')), s2))) in H
  end.
  apply matches_consumes in H as (s2 & cap2 & H & L).
  inversion H; subst.
  simpl String.length. replace (S (String.length s1') - String.length rest)
    with (S (String.length s1' - String.length rest)) by lia.
  simpl. eauto.
Qed.

Lemma findall_head r s : ∀ skip m ms,
  Re.findall_from r skip s = m :: ms →
  ∃ s' cap rest, Re.match_here r s' = Some (cap, rest) ∧ m = default EmptyString cap.
Proof.
  induction s as [|c s IH]; intros skip m ms H.
  - destruct skip; [|done]. simpl in H.
    destruct (Re.match_here r EmptyString) as [[cap rest]|] eqn:E; [|done].
    inversion H; subst. eauto.
  - destruct skip as [|skip]; simpl in H.
    + destruct (Re.match_here r (String c s)) as [[cap rest]|] eqn:E.
      * inversion H; subst. eauto.
      * by apply IH in H.
    + by apply IH in H.
Qed.

Lemma replace_truthy old new s :
  Py.truthy_str new = true → Py.truthy_str s = true →
  Py.truthy_str (Py.replace old new s) = true.
Proof.
  intros Hn Hs. destruct s as [|c s]; [done|].
  unfold Py.replace. simpl. destruct (Py.startswith old (String c s)); [|done].
  by destruct new.
Qed.

Lemma page_next_after_truthy html c :
  page_next_after html = Some c → Py.truthy_str c = true.
Proof.
  unfold page_next_after, Re.findall. intros H.
  destruct (Re.findall_from AFTER_PATTERN 0 html) as [|m ms] eqn:E; [done|].
  inversion H; subst. apply findall_head in E as (s' & cap & rest & E & ->).
  apply after_group_nonempty in E as (g & -> & Hg). by apply replace_truthy.
Qed.

(** The test of the loop, as a proposition about the page. *)
Lemma should_break_iff r after :
  should_break (page_next_after (text r)) after (page_post_ids (text r)) = true
  ↔ stop_condition r after.
Proof.
  unfold should_break, stop_condition.
  rewrite !orb_true_iff, !bool_decide_eq_true, negb_true_iff.
  destruct (page_next_after (text r)) as [c|] eqn:E; simpl.
  - rewrite (page_next_after_truthy _ _ E). intuition congruence.
  - intuition congruence.
Qed.

(** ** Discovery: the loop *)

Lemma fetch_page_next username vt s a all w1 :
  fetch_page username vt (scan_after s) (scan_all s) (scan_world s)
    = (Returned (Next a all), w1) →
  ∃ r, page_response username vt s = Some r
       ∧ status_code r ≠ 404%Z
       ∧ raises_for_status r = false
       ∧ ¬ stop_condition r (scan_after s)
       ∧ a = page_next_after (text r)
       ∧ all = scan_all s ∪ page_post_ids (text r)
       ∧ w1 = log (Sleep pacing) (requested username vt s).
Proof.
  rewrite fetch_page_spec.
  destruct (page_response username vt s) as [r|]; [|done].
  destruct (status_code r =? 404)%Z eqn:E4; [done|].
  destruct (raises_for_status r) eqn:Er; [done|].
  destruct (should_break _ _ _) eqn:Eb; [done|].
  intros [= <- <- <-]. exists r. split; [done|].
  split; [by apply Z.eqb_neq|]. split; [done|].
  split; [|done]. rewrite <- should_break_iff. congruence.
Qed.

Lemma fetch_page_world username vt s out w' :
  fetch_page username vt (scan_after s) (scan_all s) (scan_world s) = (out, w') →
  w' = requested username vt s ∨ w' = log (Sleep pacing) (requested username vt s).
Proof.
  rewrite fetch_page_spec.
  destruct (page_response username vt s) as [r|]; [|intros [= <- <-]; by left].
  destruct (status_code r =? 404)%Z; [intros [= <- <-]; by left|].
  destruct (raises_for_status r); [intros [= <- <-]; by left|].
  destruct (should_break _ _ _); intros [= <- <-]; [by left|by right].
Qed.

(** What a turn adds to the trace: one GET and, if the loop goes on,
    one pause; no vote call, no POST, no progress event. *)
Lemma fetch_page_trace username vt s out w' :
  fetch_page username vt (scan_after s) (scan_all s) (scan_world s) = (out, w') →
  requests_made w' = S (requests_made (scan_world s))
  ∧ ∃ new, trace w' = trace (scan_world s) ++ new
           ∧ vote_calls new = [] ∧ posts new = [] ∧ progress_events new = [].
Proof.
  intros H. apply fetch_page_world in H as [->| ->].
  - split; [reflexivity|]. eexists [_]. split; [reflexivity|]. done.
  - split; [reflexivity|]. eexists [_; _]. unfold log. simpl.
    split; [by rewrite <- app_assoc|]. done.
Qed.

Lemma turns_step k username vt s :
  turns (S k) username vt s =
    match fetch_page username vt (scan_after s) (scan_all s) (scan_world s) with
    | (Returned (Next after' all'), w') =>
        turns k username vt {| scan_after := after'; scan_all := all'; scan_world := w' |}
    | _ => None
    end.
Proof. reflexivity. Qed.

Lemma turns_trace username vt k : ∀ s s_k,
  turns k username vt s = Some s_k →
  requests_made (scan_world s_k) = requests_made (scan_world s) + k
  ∧ ∃ new, trace (scan_world s_k) = trace (scan_world s) ++ new
           ∧ vote_calls new = [] ∧ posts new = [] ∧ progress_events new = [].
Proof.
  induction k as [|k IH]; intros s s_k H.
  - inversion H; subst. split; [lia|]. exists []. by rewrite app_nil_r.
  - rewrite turns_step in H.
    destruct (fetch_page _ _ _ _ _) as [[[ids|a all]| |] w1] eqn:E; try done.
    apply fetch_page_trace in E as (R1 & new1 & T1 & V1 & P1 & G1).
    apply IH in H as (R2 & new2 & T2 & V2 & P2 & G2). simpl in *.
    split; [lia|]. exists (new1 ++ new2).
    rewrite T2, T1, <- app_assoc, vote_calls_app, posts_app, progress_events_app,
      V1, V2, P1, P2, G1, G2. done.
Qed.

(** The loop ends at the first turn that ends it. *)
Lemma pagination_halts username vt k : ∀ fuel s s_k ids w',
  turns k username vt s = Some s_k →
  fetch_page username vt (scan_after s_k) (scan_all s_k) (scan_world s_k)
    = (Returned (Done ids), w') →
  k < fuel →
  pagination fuel username vt (scan_after s) (scan_all s) (scan_world s)
    = (Returned ids, w').
Proof.
  induction k as [|k IH]; intros fuel s s_k ids w' Ht Hf Hk;
    (destruct fuel as [|fuel]; [lia|]).
  - inversion Ht; subst. simpl. by rewrite (bind_returned _ _ _ _ _ Hf).
  - rewrite turns_step in Ht.
    destruct (fetch_page _ _ _ _ _) as [[[ids1|a all]| |] w1] eqn:E; try done.
    simpl. rewrite (bind_returned _ _ _ _ _ E).
    apply (IH fuel {| scan_after := a; scan_all := all; scan_world := w1 |} s_k);
      [done|done|lia].
Qed.

(** While the turns go on, the loop has not ended. *)
Lemma pagination_unfinished username vt fuel : ∀ s s',
  turns fuel username vt s = Some s' →
  pagination fuel username vt (scan_after s) (scan_all s) (scan_world s)
    = (Unfinished, scan_world s').
Proof.
  induction fuel as [|fuel IH]; intros s s' Ht.
  - inversion Ht; subst. reflexivity.
  - rewrite turns_step in Ht.
    destruct (fetch_page _ _ _ _ _) as [[[ids1|a all]| |] w1] eqn:E; try done.
    simpl. rewrite (bind_returned _ _ _ _ _ E).
    by apply (IH {| scan_after := a; scan_all := all; scan_world := w1 |}).
Qed.

Lemma get_voted_posts_halts k fuel self username vt w s ids w' :
  turns k username vt (first_turn w) = Some s →
  fetch_page username vt (scan_after s) (scan_all s) (scan_world s)
    = (Returned (Done ids), w') →
  k < fuel →
  _get_voted_posts fuel self username vt w = (Returned ids, restore_accept w w').
Proof.
  intros Ht Hf Hk. unfold _get_voted_posts.
  pose proof (pagination_halts username vt k fuel (first_turn w) s ids w' Ht Hf Hk) as H.
  simpl in H. rewrite H. reflexivity.
Qed.

Lemma restore_accept_trace w w' : trace (restore_accept w w') = trace w'.
Proof. unfold restore_accept. by destruct (Py.truthy_opt _). Qed.

(** The identifiers accumulated after [k] turns are those of the [k]
    pages scanned, and there are some as soon as one turn went on. *)
Lemma turns_accumulate username vt k : ∀ s s_k,
  turns k username vt s = Some s_k →
  scan_all s_k = scan_all s ∪ ⋃ (page_post_ids <$> pages_scanned k username vt s)
  ∧ length (pages_scanned k username vt s) = k
  ∧ (0 < k → scan_all s_k ≠ ∅).
Proof.
  induction k as [|k IH]; intros s s_k H.
  - inversion H; subst. simpl. split; [set_solver|]. split; [done|lia].
  - rewrite turns_step in H. simpl pages_scanned.
    destruct (fetch_page _ _ _ _ _) as [[[ids1|a all]| |] w1] eqn:E; try done.
    destruct (fetch_page_next _ _ _ _ _ _ E)
      as (r & Hr & _ & _ & Hstop & -> & -> & ->).
    rewrite Hr. apply IH in H as (Hall & Hlen & _). simpl in *.
    split; [rewrite Hall; set_solver|]. split; [by rewrite Hlen|].
    intros _ Hempty. apply Hstop. right. right.
    rewrite Hall in Hempty. set_solver.
Qed.

Lemma turns_snoc username vt k : ∀ s s_k,
  turns k username vt s = Some s_k →
  turns (S k) username vt s = turns 1 username vt s_k.
Proof.
  induction k as [|k IH]; intros s s_k H.
  - by inversion H; subst.
  - rewrite turns_step in H. rewrite turns_step.
    destruct (fetch_page _ _ _ _ _) as [[[ids1|a all]| |] w1] eqn:E; try done.
    by apply IH.
Qed.

Lemma requested_made username vt s :
  requests_made (requested username vt s) = S (requests_made (scan_world s)).
Proof. reflexivity. Qed.

Lemma restore_accept_requests w w' :
  requests_made (restore_accept w w') = requests_made w'.
Proof. unfold restore_accept. by destruct (Py.truthy_opt _). Qed.

(** ** Not found *)

(** C7.  If the answer to a page request of discovery has status 404,
    at the first page or at a later one, discovery returns the empty
    set and drops what it had accumulated; the pass returns the
    statistics 0, 0, 0, hands the callback exactly one event, a
    warning, and makes no vote call and no POST. *)
Theorem not_found_aborts_pass k fuel self username vt delay f w s r :
  turns k username vt (first_turn w) = Some s →
  page_response username vt s = Some r →
  status_code r = 404%Z →
  k < fuel →
  (0 < k → scan_all s ≠ ∅)
  ∧ ∃ w1 w2 new ev,
      _get_voted_posts fuel self username vt w = (Returned ∅, w1)
      ∧ remove_votes fuel self username vt delay (Some f) w
        = (Returned {| total := 0; removed := 0; failed := 0 |}, w2)
      ∧ trace w2 = trace w ++ new
      ∧ progress_events new = [ev]
      ∧ status ev = "warning"
      ∧ ev_stats ev = {| total := 0; removed := 0; failed := 0 |}
      ∧ vote_calls new = []
      ∧ posts new = [].
Proof.
  intros Ht Hr H404 Hk.
  split; [by apply (turns_accumulate username vt k (first_turn w) s Ht)|].
  assert (Hf : fetch_page username vt (scan_after s) (scan_all s) (scan_world s)
               = (Returned (Done ∅), requested username vt s)).
  { rewrite fetch_page_spec, Hr, H404. reflexivity. }
  pose proof (get_voted_posts_halts k fuel self username vt w s ∅ _ Ht Hf Hk) as Hd.
  destruct (turns_trace username vt k _ _ Ht) as (_ & new0 & T0 & V0 & P0 & G0).
  eexists _, _, (new0 ++ [_] ++ [_]), _.
  split; [exact Hd|]. split.
  { rewrite (remove_votes_after_discovery _ _ _ _ delay (Some f) _ _ _ Hd).
    apply remove_discovered_empty. }
  split.
  { rewrite trace_log, restore_accept_trace. unfold requested. simpl trace.
    rewrite T0. simpl. by rewrite <- !app_assoc. }
  rewrite vote_calls_app, posts_app, progress_events_app, V0, P0, G0. done.
Qed.

Lemma not_found_aborts_pass_witness :
  scan_all (scan_after_turns 1 "bob" UPVOTED private_world) ≠ ∅
  ∧ ∃ w1 w2 new ev,
      _get_voted_posts 5 demo_self "bob" UPVOTED private_world = (Returned ∅, w1)
      ∧ remove_votes 5 demo_self "bob" UPVOTED (1 # 2) (Some (fun _ => true)) private_world
        = (Returned {| total := 0; removed := 0; failed := 0 |}, w2)
      ∧ trace w2 = trace private_world ++ new
      ∧ progress_events new = [ev]
      ∧ status ev = "warning"
      ∧ ev_stats ev = {| total := 0; removed := 0; failed := 0 |}
      ∧ vote_calls new = []
      ∧ posts new = [].
Proof.
  assert (Ht : turns 1 "bob" UPVOTED (first_turn private_world)
               = Some (scan_after_turns 1 "bob" UPVOTED private_world))
    by (vm_compute; reflexivity).
  assert (Hr : page_response "bob" UPVOTED (scan_after_turns 1 "bob" UPVOTED private_world)
               = Some (html_response 404 "Not Found"))
    by (vm_compute; reflexivity).
  destruct (not_found_aborts_pass 1 5 demo_self "bob" UPVOTED (1 # 2) (fun _ => true)
              private_world _ _ Ht Hr eq_refl) as [Hacc Hpass]; [lia|].
  split; [apply Hacc; lia|exact Hpass].
Defined.

(** ** Exceptions during pagination *)

(** C9.  If, after at least one page has been scanned and the loop has
    gone on, a page request raises or its answer makes
    [raise_for_status] raise, discovery returns the identifiers
    accumulated so far, which are those of the pages scanned and are
    not empty. *)
Theorem partial_results_on_exception k fuel self username vt w s :
  turns k username vt (first_turn w) = Some s →
  0 < k →
  (page_response username vt s = None
   ∨ ∃ r, page_response username vt s = Some r
          ∧ status_code r ≠ 404%Z ∧ raises_for_status r = true) →
  k < fuel →
  ∃ w1,
    _get_voted_posts fuel self username vt w = (Returned (scan_all s), w1)
    ∧ scan_all s = ⋃ (page_post_ids <$> pages_scanned k username vt (first_turn w))
    ∧ length (pages_scanned k username vt (first_turn w)) = k
    ∧ scan_all s ≠ ∅.
Proof.
  intros Ht Hpos Hexc Hk.
  assert (Hf : fetch_page username vt (scan_after s) (scan_all s) (scan_world s)
               = (Returned (Done (scan_all s)), requested username vt s)).
  { rewrite fetch_page_spec. destruct Hexc as [->|(r & -> & H404 & Hraise)].
    - reflexivity.
    - apply Z.eqb_neq in H404. by rewrite H404, Hraise. }
  destruct (turns_accumulate username vt k _ _ Ht) as (Hall & Hlen & Hne).
  eexists. split; [exact (get_voted_posts_halts k fuel self username vt w s _ _ Ht Hf Hk)|].
  split; [rewrite Hall; simpl; set_solver|]. split; [exact Hlen|by apply Hne].
Qed.

Lemma partial_results_on_exception_witness :
  ∃ w1,
    _get_voted_posts 5 demo_self "bob" UPVOTED flaky_world
      = (Returned (scan_all (scan_after_turns 1 "bob" UPVOTED flaky_world)), w1)
    ∧ scan_all (scan_after_turns 1 "bob" UPVOTED flaky_world)
      = ⋃ (page_post_ids <$> pages_scanned 1 "bob" UPVOTED (first_turn flaky_world))
    ∧ length (pages_scanned 1 "bob" UPVOTED (first_turn flaky_world)) = 1
    ∧ scan_all (scan_after_turns 1 "bob" UPVOTED flaky_world) ≠ ∅.
Proof.
  apply (partial_results_on_exception 1 5 demo_self "bob" UPVOTED flaky_world).
  - vm_compute. reflexivity.
  - lia.
  - left. vm_compute. reflexivity.
  - lia.
Defined.

(** ** Stop conditions of pagination *)

(** C2, as the code has it.  After a page that was fetched without an
    exception, with a status that is not 404 and not in 400..599, the
    loop stops exactly when no cursor was extracted, or the cursor is
    the one of the request just made, or the page shows no identifier
    at all.  If this happens at the turn that follows [k] turns,
    discovery returns after [k + 1] requests with the identifiers of
    all pages scanned; otherwise the loop makes a further turn. *)
Theorem pagination_stop_conditions k fuel self username vt w s r :
  turns k username vt (first_turn w) = Some s →
  page_response username vt s = Some r →
  status_code r ≠ 404%Z →
  raises_for_status r = false →
  k < fuel →
  (stop_condition r (scan_after s) →
   ∃ w1,
     _get_voted_posts fuel self username vt w
       = (Returned (scan_all s ∪ page_post_ids (text r)), w1)
     ∧ requests_made w1 = requests_made w + S k)
  ∧ (¬ stop_condition r (scan_after s) →
     turns (S k) username vt (first_turn w)
       = Some {| scan_after := page_next_after (text r);
                 scan_all := scan_all s ∪ page_post_ids (text r);
                 scan_world := log (Sleep pacing) (requested username vt s) |}).
Proof.
  intros Ht Hr H404 Hraise Hk. apply Z.eqb_neq in H404.
  pose proof (fetch_page_spec username vt s) as Hf.
  rewrite Hr, H404, Hraise in Hf. split.
  - intros Hstop. apply should_break_iff in Hstop. rewrite Hstop in Hf.
    eexists. split; [exact (get_voted_posts_halts k fuel self username vt w s _ _ Ht Hf Hk)|].
    rewrite restore_accept_requests, requested_made.
    destruct (turns_trace username vt k _ _ Ht) as (-> & _). simpl. lia.
  - intros Hstop. rewrite <- should_break_iff in Hstop.
    apply not_true_is_false in Hstop. rewrite Hstop in Hf.
    rewrite (turns_snoc username vt k _ _ Ht), turns_step, Hf. reflexivity.
Qed.

Lemma pagination_stop_conditions_witness :
  (∃ w1,
     _get_voted_posts 5 demo_self "bob" UPVOTED demo_world
       = (Returned (scan_all (scan_after_turns 1 "bob" UPVOTED demo_world)
                    ∪ page_post_ids demo_page2), w1)
     ∧ requests_made w1 = requests_made demo_world + 2)
  ∧ is_Some (turns 1 "bob" UPVOTED (first_turn demo_world)).
Proof.
  split.
  - assert (Ht : turns 1 "bob" UPVOTED (first_turn demo_world)
                 = Some (scan_after_turns 1 "bob" UPVOTED demo_world))
      by (vm_compute; reflexivity).
    assert (Hr : page_response "bob" UPVOTED (scan_after_turns 1 "bob" UPVOTED demo_world)
                 = Some (html_response 200 demo_page2))
      by (vm_compute; reflexivity).
    refine (proj1 (pagination_stop_conditions 1 5 demo_self "bob" UPVOTED demo_world
                     _ _ Ht Hr _ eq_refl _) _).
    + simpl. lia.
    + lia.
    + left. vm_compute. reflexivity.
  - assert (Hr : page_response "bob" UPVOTED (first_turn demo_world)
                 = Some (html_response 200 demo_page1))
      by (vm_compute; reflexivity).
    eexists.
    refine (proj2 (pagination_stop_conditions 0 5 demo_self "bob" UPVOTED demo_world
                     _ _ eq_refl Hr _ eq_refl _) _).
    + simpl. lia.
    + lia.
    + intros [H|[H|H]]; vm_compute in H; discriminate H.
Defined.

(** *** A cursor that comes back after another one *)

Lemma turn_goes_on username vt s r :
  page_response username vt s = Some r →
  (status_code r =? 404)%Z = false →
  raises_for_status r = false →
  should_break (page_next_after (text r)) (scan_after s) (page_post_ids (text r)) = false →
  turns 1 username vt s
    = Some {| scan_after := page_next_after (text r);
              scan_all := scan_all s ∪ page_post_ids (text r);
              scan_world := log (Sleep pacing) (requested username vt s) |}.
Proof.
  intros Hr H404 Hraise Hb.
  rewrite turns_step, fetch_page_spec, Hr, H404, Hraise, Hb. reflexivity.
Qed.

Lemma cyc_turn s :
  network (scan_world s) = cyc_network →
  (scan_after s = None ∨ scan_after s = Some "c1" ∨ scan_after s = Some "c2") →
  ∃ s', turns 1 "bob" UPVOTED s = Some s'
        ∧ network (scan_world s') = cyc_network
        ∧ (scan_after s' = None ∨ scan_after s' = Some "c1" ∨ scan_after s' = Some "c2").
Proof.
  intros Hnet Hafter. destruct s as [after all w]. simpl in Hnet, Hafter.
  destruct Hafter as [->|[->| ->]].
  - eexists. split.
    + apply (turn_goes_on _ _ _ (html_response 200 cyc_page1));
        [unfold page_response; simpl scan_world; rewrite Hnet; reflexivity
        |reflexivity|reflexivity|vm_compute; reflexivity].
    + split; [exact Hnet|]. right. left. vm_compute. reflexivity.
  - eexists. split.
    + apply (turn_goes_on _ _ _ (html_response 200 cyc_page2));
        [unfold page_response; simpl scan_world; rewrite Hnet; reflexivity
        |reflexivity|reflexivity|vm_compute; reflexivity].
    + split; [exact Hnet|]. right. right. vm_compute. reflexivity.
  - eexists. split.
    + apply (turn_goes_on _ _ _ (html_response 200 cyc_page1));
        [unfold page_response; simpl scan_world; rewrite Hnet; reflexivity
        |reflexivity|reflexivity|vm_compute; reflexivity].
    + split; [exact Hnet|]. right. left. vm_compute. reflexivity.
Qed.

Lemma turns_add username vt j : ∀ k s s_j,
  turns j username vt s = Some s_j →
  turns (j + k) username vt s = turns k username vt s_j.
Proof.
  induction j as [|j IH]; intros k s s_j H.
  - by inversion H; subst.
  - rewrite turns_step in H. change (S j + k) with (S (j + k)). rewrite turns_step.
    destruct (fetch_page _ _ _ _ _) as [[[ids1|a all]| |] w1] eqn:E; try done.
    by apply IH.
Qed.

Lemma cyc_turns k : ∀ s,
  network (scan_world s) = cyc_network →
  (scan_after s = None ∨ scan_after s = Some "c1" ∨ scan_after s = Some "c2") →
  is_Some (turns k "bob" UPVOTED s).
Proof.
  induction k as [|k IH]; intros s Hnet Hafter; [by eexists|].
  destruct (cyc_turn s Hnet Hafter) as (s' & Ht & Hnet' & Hafter').
  change (S k) with (1 + k). rewrite (turns_add _ _ 1 k s s' Ht). by apply IH.
Qed.

(** With the cursors [c1], [c2], [c1], ... discovery never returns. *)
Lemma cyclic_cursors_never_halt fuel :
  (_get_voted_posts fuel demo_self "bob" UPVOTED cyc_world).1 = Unfinished.
Proof.
  destruct (cyc_turns fuel (first_turn cyc_world)) as [s' Ht];
    [reflexivity|by left|].
  unfold _get_voted_posts.
  pose proof (pagination_unfinished "bob" UPVOTED fuel (first_turn cyc_world) s' Ht) as H.
  simpl in H. rewrite H. reflexivity.
Qed.

(** C2 as claimed fails twice.  In [dup_world] the second page shows
    no identifier that was not seen on the first, so that a stop
    condition of the specification holds, and the loop goes on to a
    third request.  In [cyc_world] there are three distinct pages and
    the cursor [c1] comes back, and the loop never ends. *)
Lemma stop_conditions_not_as_specified :
  (page_response "bob" UPVOTED (scan_after_turns 1 "bob" UPVOTED dup_world)
     = Some (html_response 200 dup_page2)
   ∧ stop_as_specified (page_next_after dup_page2)
       (scan_after (scan_after_turns 1 "bob" UPVOTED dup_world))
       (page_post_ids dup_page2)
       (scan_all (scan_after_turns 1 "bob" UPVOTED dup_world))
   ∧ is_Some (turns 2 "bob" UPVOTED (first_turn dup_world))
   ∧ requests_made (after_discovery 5 demo_self "bob" UPVOTED dup_world)
     = requests_made dup_world + 3)
  ∧ ¬ ∃ fuel ids, (_get_voted_posts fuel demo_self "bob" UPVOTED cyc_world).1 = Returned ids.
Proof.
  split.
  - split; [vm_compute; reflexivity|]. split; [right; right; vm_compute; reflexivity|].
    split; [eexists; vm_compute; reflexivity|vm_compute; reflexivity].
  - intros (fuel & ids & H). by rewrite cyclic_cursors_never_halt in H.
Qed.

(** ** Progress snapshots *)



(** ** A remover without the CSRF token *)






(** ** Cookie strings *)














(** The set keeps no trace of the order of discovery: the listing of
    [demo_world] and the one with its pages exchanged are visited in
    the same order. *)
Lemma mutation_order_forgets_page_order :
  first_seen [demo_page1; demo_page2] ≠ first_seen [swapped_page1; swapped_page2]
  ∧ visited (trace (remove_votes 5 demo_self "bob" UPVOTED (1 # 2) None demo_world).2)
    = visited (trace (remove_votes 5 demo_self "bob" UPVOTED (1 # 2) None swapped_world).2).
Proof.
  split; [|vm_compute; reflexivity].
  intros H. vm_compute in H. discriminate H.
Qed.

(** * Further properties of the code *)

(** ** The mutator: what counts as success *)

Lemma vote_value self p vs w :
  (_vote self p vs w).1 =
    Returned
      (if Py.truthy_opt (csrf_token self)
       then match network w (requests_made w)
                    (POST graphql_url (vote_payload p vs (default "" (csrf_token self)))) with
            | Some rsp =>
                match json_body rsp with
                | Some result => default (JBool false) (ok_of result)
                | None => JBool false
                end
            | None => JBool false
            end
       else JBool false).
Proof.
  unfold _vote. destruct (Py.truthy_opt (csrf_token self)); simpl; [|reflexivity].
  unfold bind at 1. unfold bind at 1. unfold session_post, send.
  destruct (network w (requests_made w) _) as [rsp|]; [|reflexivity].
  destruct (json_body rsp); reflexivity.
Qed.

Lemma ok_of_truthy result r :
  truthy r = true →
  default (JBool false) (ok_of result) = r ↔
  ∃ items data_items op_items,
    result = JObj items
    ∧ lookup_item "data" items = Some (JObj data_items)
    ∧ lookup_item "updatePostVoteState" data_items = Some (JObj op_items)
    ∧ lookup_item "ok" op_items = Some r.
Proof.
  intros Hr. split.
  - unfold ok_of. destruct result as [| | | | |items]; simpl;
      try (intros <-; discriminate Hr).
    destruct (lookup_item "data" items) as [d|] eqn:Ed; simpl.
    + destruct d as [| | | | |data_items]; simpl; try (intros <-; discriminate Hr).
      destruct (lookup_item "updatePostVoteState" data_items) as [u|] eqn:Eu; simpl.
      * destruct u as [| | | | |op_items]; simpl; try (intros <-; discriminate Hr).
        destruct (lookup_item "ok" op_items) as [v|] eqn:Ev; simpl.
        -- intros <-. eauto 10.
        -- intros <-. discriminate Hr.
      * intros <-. discriminate Hr.
    + intros <-. discriminate Hr.
  - intros (items & data_items & op_items & -> & Hd & Hu & Hok).
    unfold ok_of. simpl. rewrite Hd. simpl. rewrite Hu. simpl. by rewrite Hok.
Qed.

(** X1.  A vote call returns a true value [r] exactly when the remover
    has a token, the POST is answered, the body decodes to an object,
    and that object holds [r] under "data", "updatePostVoteState",
    "ok", each level being an object.  The status code of the answer
    plays no part. *)
Theorem vote_succeeds_only_on_nested_ok self post_id vote_state w r :
  truthy r = true →
  (_vote self post_id vote_state w).1 = Returned r ↔
  Py.truthy_opt (csrf_token self) = true
  ∧ ∃ rsp items data_items op_items,
      network w (requests_made w)
        (POST graphql_url (vote_payload post_id vote_state (default "" (csrf_token self))))
        = Some rsp
      ∧ json_body rsp = Some (JObj items)
      ∧ lookup_item "data" items = Some (JObj data_items)
      ∧ lookup_item "updatePostVoteState" data_items = Some (JObj op_items)
      ∧ lookup_item "ok" op_items = Some r.
Proof.
  intros Hr. rewrite vote_value. split.
  - intros H. inversion H as [Hv]. clear H.
    destruct (Py.truthy_opt (csrf_token self)); [|subst r; discriminate Hr].
    split; [reflexivity|].
    destruct (network w (requests_made w) _) as [rsp|]; [|subst r; discriminate Hr].
    destruct (json_body rsp) as [result|] eqn:Ej; [|subst r; discriminate Hr].
    apply (ok_of_truthy result r Hr) in Hv as (items & d & u & -> & Hd & Hu & Hok).
    exists rsp, items, d, u. repeat split; try done.
    unfold ok_of. simpl. rewrite Hd. simpl. rewrite Hu. simpl. by rewrite Hok.
  - intros (-> & rsp & items & d & u & -> & -> & Hd & Hu & Hok).
    f_equal. apply (ok_of_truthy (JObj items) r Hr). eauto 10.
Qed.

Lemma vote_succeeds_only_on_nested_ok_witness :
  (_vote demo_self "t3_abc" NONE demo_world).1 = Returned (JBool true)
  ∧ Py.truthy_opt (csrf_token demo_self) = true.
Proof.
  split.
  - apply (vote_succeeds_only_on_nested_ok demo_self "t3_abc" NONE demo_world (JBool true));
      [reflexivity|].
    split; [reflexivity|].
    exists (vote_response (JBool true)),
           [("data", JObj [("updatePostVoteState", JObj [("ok", JBool true)])])],
           [("updatePostVoteState", JObj [("ok", JBool true)])],
           [("ok", JBool true)].
    repeat split; reflexivity.
  - apply (vote_succeeds_only_on_nested_ok demo_self "t3_abc" NONE demo_world (JBool true));
      [reflexivity|vm_compute; reflexivity].
Defined.

(** ** Discovery: the scoped [Accept] header *)

Lemma requests_app tr1 tr2 : requests (tr1 ++ tr2) = requests tr1 ++ requests tr2.
Proof. apply omap_app. Qed.

Lemma sleeps_app tr1 tr2 : sleeps (tr1 ++ tr2) = sleeps tr1 ++ sleeps tr2.
Proof. apply omap_app. Qed.

(** What the loop does to the world: the header is left alone, each
    request is a GET that carries it, each pause is the short one. *)
Lemma pagination_world username vt fuel : ∀ after all w out w',
  pagination fuel username vt after all w = (out, w') →
  accept_header w' = accept_header w
  ∧ ∃ new, trace w' = trace w ++ new
           ∧ Forall (fun r => ∃ url params, r = GET url params (accept_header w))
               (requests new)
           ∧ Forall (fun d => d = pacing) (sleeps new)
           ∧ vote_calls new = [] ∧ progress_events new = [].
Proof.
  induction fuel as [|fuel IH]; intros after all w out w' H.
  - inversion H; subst. split; [done|]. exists []. rewrite app_nil_r. done.
  - simpl in H. unfold bind in H.
    destruct (fetch_page username vt after all w) as [o1 w1] eqn:E.
    assert (Hw1 : accept_header w1 = accept_header w
                  ∧ ∃ new, trace w1 = trace w ++ new
                           ∧ Forall (fun r => ∃ url params,
                                        r = GET url params (accept_header w))
                               (requests new)
                           ∧ Forall (fun d => d = pacing) (sleeps new)
                           ∧ vote_calls new = [] ∧ progress_events new = []).
    { apply (fetch_page_world username vt
               {| scan_after := after; scan_all := all; scan_world := w |}) in E.
      destruct E as [->| ->].
      - split; [reflexivity|]. eexists [_]. split; [reflexivity|].
        split; [|done]. repeat constructor. eauto.
      - split; [reflexivity|]. eexists [_; _]. unfold log. simpl.
        split; [by rewrite <- app_assoc|]. split; [|split; [|done]]; repeat constructor.
        eauto. }
    destruct Hw1 as (Ha1 & new1 & T1 & R1 & S1 & V1 & P1).
    destruct o1 as [[ids|a all']| |]; try (inversion H; subst; eauto 10).
    apply IH in H as (Ha2 & new2 & T2 & R2 & S2 & V2 & P2).
    split; [congruence|]. exists (new1 ++ new2).
    rewrite T2, T1, <- app_assoc, requests_app, sleeps_app, vote_calls_app,
      progress_events_app, V1, V2, P1, P2.
    split; [done|]. rewrite Ha1 in R2. split; [by apply Forall_app|].
    split; [by apply Forall_app|done].
Qed.

Lemma get_voted_posts_world fuel self username vt w out w1 :
  _get_voted_posts fuel self username vt w = (out, w1) →
  accept_header w1
  = (if Py.truthy_opt (accept_header w) then accept_header w else Some html_accept)
  ∧ ∃ new, trace w1 = trace w ++ new
           ∧ Forall (fun r => ∃ url params, r = GET url params (Some html_accept))
               (requests new)
           ∧ Forall (fun d => d = pacing) (sleeps new)
           ∧ vote_calls new = [] ∧ progress_events new = [].
Proof.
  unfold _get_voted_posts.
  destruct (pagination fuel username vt None ∅ (set_accept (Some html_accept) w))
    as [o w'] eqn:E.
  intros H. inversion H; subst. clear H.
  apply pagination_world in E as (Ha & new & T & R & S & V & P). simpl in Ha, T, R.
  split.
  - destruct (Py.truthy_opt (accept_header w)); [reflexivity|exact Ha].
  - exists new. split; [|done].
    destruct (Py.truthy_opt (accept_header w)); exact T.
Qed.

(** X2.  While [_get_voted_posts] runs, every request it makes is a
    GET that carries the HTML [Accept] header.  When it is left, the
    header the session had before is back if that header was non-empty;
    a session that had none, or an empty one, is left with the HTML
    header. *)
Theorem accept_header_scoped fuel self username vt w out w1 :
  _get_voted_posts fuel self username vt w = (out, w1) →
  accept_header w1
  = (if Py.truthy_opt (accept_header w) then accept_header w else Some html_accept)
  ∧ ∃ new, trace w1 = trace w ++ new
           ∧ Forall (fun r => ∃ url params, r = GET url params (Some html_accept))
               (requests new).
Proof.
  intros H. destruct (get_voted_posts_world _ _ _ _ _ _ _ H) as (Ha & new & T & R & _).
  split; [exact Ha|]. exists new. done.
Qed.

Lemma accept_header_scoped_witness :
  accept_header (after_discovery 5 demo_self "bob" UPVOTED demo_world)
  = Some "application/json"
  ∧ ∃ new, trace (after_discovery 5 demo_self "bob" UPVOTED demo_world)
           = trace demo_world ++ new
           ∧ Forall (fun r => ∃ url params, r = GET url params (Some html_accept))
               (requests new).
Proof.
  exact (accept_header_scoped 5 demo_self "bob" UPVOTED demo_world _ _ demo_discovery).
Defined.

(** ** The credential adapter: later pairs and trimming *)








(** ** The standalone script: a negative delay *)

(** X5.  Called with a negative delay, the [remove_votes] of the
    script still returns when at most one post was discovered, since no
    pause between items is needed; with two or more it is left by the
    [ValueError] of [time.sleep] right after the two vote calls of the
    first item, and no other item is touched. *)
Theorem script_negative_delay fuel self username vt delay w ids w1 :
  _get_voted_posts fuel self username vt w = (Returned ids, w1) →
  Qle_bool 0 delay = false →
  ((size ids ≤ 1)%nat →
   ∃ st w2,
     Simple.remove_votes fuel self username vt delay w = (Returned st, w2)
     ∧ total st = size ids ∧ removed st + failed st = size ids)
  ∧ ((2 ≤ size ids)%nat →
     ∃ p rest r1 r2 new w2,
       elements ids = p :: rest
       ∧ Simple.remove_votes fuel self username vt delay w = (Raised, w2)
       ∧ trace w2 = trace w1 ++ new
       ∧ vote_calls new = [(p, nominal_state vt, r1); (p, NONE, r2)]).
Proof.
  intros Hd Hneg.
  rewrite (simple_remove_votes_after_discovery _ _ _ _ delay _ _ _ Hd).
  unfold Simple.remove_discovered.
  assert (Hsize : size ids = length (elements ids)) by reflexivity.
  destruct (elements ids) as [|p rest] eqn:El.
  - apply elements_empty_inv in El. apply leibniz_equiv in El. subst ids.
    split; [|intros H; rewrite Hsize in H; simpl in H; lia]. intros _.
    rewrite bool_decide_eq_true_2 by done. eexists _, _. split; [reflexivity|].
    split; reflexivity.
  - assert (Hne : ids ≠ ∅).
    { intros ->. rewrite elements_empty in El. discriminate El. }
    rewrite bool_decide_eq_false_2 by exact Hne.
    destruct (simple_remove_item_spec self (nominal_state vt) delay (size ids) 1 p 0 0 w1)
      as (r1 & r2 & new & w2 & R & T & VC & _).
    rewrite Hneg in R. simpl negb in R. rewrite andb_true_r in R.
    split.
    + intros Hle. destruct rest; [|simpl in Hsize; lia].
      replace (1 <? size ids)%nat with false in R
        by (symmetry; apply Nat.ltb_ge; lia).
      change (Simple.remove_items self (nominal_state vt) delay (size ids) 1 [p] (0, 0))
        with (bind (Simple.remove_item self (nominal_state vt) delay (size ids) 1 p (0, 0))
                (fun c => Simple.remove_items self (nominal_state vt) delay (size ids)
                            2 [] c)).
      unfold bind. rewrite R. simpl.
      eexists _, _. split; [reflexivity|]. simpl.
      split; [reflexivity|]. rewrite Hsize. destruct (truthy r2); reflexivity.
    + intros Hge.
      replace (1 <? size ids)%nat with true in R
        by (symmetry; apply Nat.ltb_lt; lia).
      exists p, rest, r1, r2, new, w2. split; [reflexivity|].
      split; [|done].
      change (Simple.remove_items self (nominal_state vt) delay (size ids) 1 (p :: rest)
                (0, 0))
        with (bind (Simple.remove_item self (nominal_state vt) delay (size ids) 1 p (0, 0))
                (fun c => Simple.remove_items self (nominal_state vt) delay (size ids)
                            2 rest c)).
      unfold bind. by rewrite R.
Qed.

Lemma script_negative_delay_witness :
  ∃ p rest r1 r2 new w2,
    elements (discovered 5 demo_self "bob" UPVOTED demo_world) = p :: rest
    ∧ Simple.remove_votes 5 demo_self "bob" UPVOTED (-1 # 2) demo_world = (Raised, w2)
    ∧ trace w2 = trace (after_discovery 5 demo_self "bob" UPVOTED demo_world) ++ new
    ∧ vote_calls new = [(p, nominal_state UPVOTED, r1); (p, NONE, r2)].
Proof.
  apply (script_negative_delay 5 demo_self "bob" UPVOTED (-1 # 2) demo_world _ _
           demo_discovery eq_refl).
  vm_compute. lia.
Defined.

(** ** The backend: no pause shorter than 0.3 *)





(** ** Discovery: a first page that fails *)

(** X7.  When the first request of discovery raises, or is answered
    with a status in 400..599, or with a page that shows no identifier,
    the pass ends the same way: discovery returns the empty set after
    that one request, [remove_votes] returns the statistics 0, 0, 0, and
    the callback gets the single warning "No ... posts found for
    @username."; a failure of the network is not told apart from an
    empty listing. *)
Theorem first_page_failure_reads_as_no_posts fuel self username vt delay f w :
  0 < fuel →
  (page_response username vt (first_turn w) = None
   ∨ ∃ r, page_response username vt (first_turn w) = Some r
          ∧ (raises_for_status r = true ∨ page_post_ids (text r) = ∅)) →
  ∃ w1 w2 new ev,
    _get_voted_posts fuel self username vt w = (Returned ∅, w1)
    ∧ remove_votes fuel self username vt delay (Some f) w
      = (Returned {| total := 0; removed := 0; failed := 0 |}, w2)
    ∧ trace w2 = trace w ++ new
    ∧ requests new = [GET (voted_url username vt) [] (Some html_accept)]
    ∧ progress_events new = [ev]
    ∧ message ev = "No " +:+ VoteType_value vt +:+ " posts found for @" +:+ username +:+ "."
    ∧ status ev = "warning"
    ∧ vote_calls new = [].
Proof.
  intros Hfuel Hfail.
  assert (Hf : fetch_page username vt (scan_after (first_turn w)) (scan_all (first_turn w))
                 (scan_world (first_turn w))
               = (Returned (Done ∅), requested username vt (first_turn w))).
  { rewrite fetch_page_spec. destruct Hfail as [->|(r & -> & Hr)]; [reflexivity|].
    destruct (status_code r =? 404)%Z; [reflexivity|].
    destruct (raises_for_status r) eqn:Er; [reflexivity|].
    destruct Hr as [Hr|Hr]; [discriminate Hr|].
    assert (Hb : should_break (page_next_after (text r)) (scan_after (first_turn w))
                   (page_post_ids (text r)) = true).
    { apply should_break_iff. right. right. exact Hr. }
    rewrite Hb, Hr. reflexivity. }
  pose proof (get_voted_posts_halts 0 fuel self username vt w (first_turn w) ∅ _
                eq_refl Hf Hfuel) as Hd.
  eexists _, _, [_; _], _. split; [exact Hd|]. split.
  { rewrite (remove_votes_after_discovery _ _ _ _ delay (Some f) _ _ _ Hd).
    apply remove_discovered_empty. }
  split.
  { rewrite trace_log, restore_accept_trace. unfold requested. simpl.
    by rewrite <- app_assoc. }
  done.
Qed.

Lemma first_page_failure_reads_as_no_posts_witness :
  ∃ w1 w2 new ev,
    _get_voted_posts 5 demo_self "bob" UPVOTED
      (initial_world (scripted [] (fun _ => None))) = (Returned ∅, w1)
    ∧ remove_votes 5 demo_self "bob" UPVOTED (1 # 2) (Some (fun _ => true))
        (initial_world (scripted [] (fun _ => None)))
      = (Returned {| total := 0; removed := 0; failed := 0 |}, w2)
    ∧ trace w2 = trace (initial_world (scripted [] (fun _ => None))) ++ new
    ∧ requests new = [GET (voted_url "bob" UPVOTED) [] (Some html_accept)]
    ∧ progress_events new = [ev]
    ∧ message ev = "No " +:+ VoteType_value UPVOTED +:+ " posts found for @" +:+ "bob" +:+ "."
    ∧ status ev = "warning"
    ∧ vote_calls new = [].
Proof.
  apply (first_page_failure_reads_as_no_posts 5 demo_self "bob" UPVOTED (1 # 2)
           (fun _ => true) (initial_world (scripted [] (fun _ => None)))).
  - lia.
  - left. reflexivity.
Defined.

(** ** Discovery: which pages are asked for, and what is returned *)

Lemma turns_accept username vt k : ∀ s0 s,
  turns k username vt s0 = Some s →
  accept_header (scan_world s) = accept_header (scan_world s0).
Proof.
  induction k as [|k IH]; intros s0 s H.
  - by inversion H.
  - rewrite turns_step in H.
    destruct (fetch_page _ _ _ _ _) as [[[ids1|a all]| |] w1] eqn:E; try done.
    apply IH in H. simpl in H. rewrite H.
    apply fetch_page_world in E as [->| ->]; reflexivity.
Qed.

Lemma turns_last username vt k : ∀ s0 s,
  turns (S k) username vt s0 = Some s →
  ∃ s_prev r,
    turns k username vt s0 = Some s_prev
    ∧ page_response username vt s_prev = Some r
    ∧ scan_after s = page_next_after (text r)
    ∧ ¬ stop_condition r (scan_after s_prev).
Proof.
  induction k as [|k IH]; intros s0 s H.
  - rewrite turns_step in H.
    destruct (fetch_page _ _ _ _ _) as [[[ids1|a all]| |] w1] eqn:E; try done.
    inversion H; subst. clear H.
    destruct (fetch_page_next _ _ _ _ _ _ E) as (r & Hr & _ & _ & Hstop & -> & _).
    exists s0, r. done.
  - rewrite turns_step in H.
    destruct (fetch_page _ _ _ _ _) as [[[ids1|a all]| |] w1] eqn:E; try done.
    apply IH in H as (s_prev & r & Ht & Hrest).
    exists s_prev, r. split; [|exact Hrest]. by rewrite turns_step, E.
Qed.

(** X8.  The first request of discovery goes to the listing of the
    user, without parameters.  Every later request goes to the
    more-posts endpoint and carries, as [after], the cursor extracted
    from the page fetched just before, with [%3D] decoded, and the
    user name as [name]; that cursor is never empty. *)
Theorem pagination_request_targets k username vt w s :
  turns k username vt (first_turn w) = Some s →
  ∃ out w' url params,
    fetch_page username vt (scan_after s) (scan_all s) (scan_world s) = (out, w')
    ∧ (∃ new, trace w' = trace (scan_world s) ++ new
              ∧ requests new = [GET url params (Some html_accept)])
    ∧ match k with
      | O => url = voted_url username vt ∧ params = []
      | S k' =>
          ∃ s_prev r c,
            turns k' username vt (first_turn w) = Some s_prev
            ∧ page_response username vt s_prev = Some r
            ∧ page_next_after (text r) = Some c
            ∧ Py.truthy_str c = true
            ∧ url = more_posts_url vt
            ∧ params = [("after", c); ("name", username)]
      end.
Proof.
  intros Ht.
  pose proof (turns_accept username vt k _ _ Ht) as Hacc. simpl in Hacc.
  destruct (fetch_page username vt (scan_after s) (scan_all s) (scan_world s))
    as [out w'] eqn:E.
  assert (Hreq : ∃ new, trace w' = trace (scan_world s) ++ new
                        ∧ requests new
                          = [GET (if Py.truthy_opt (scan_after s) then more_posts_url vt
                                  else voted_url username vt)
                               (if Py.truthy_opt (scan_after s)
                                then [("after", default "" (scan_after s));
                                      ("name", username)] else [])
                               (Some html_accept)]).
  { apply fetch_page_world in E as [->| ->].
    - eexists [_]. split; [reflexivity|]. simpl. by rewrite Hacc.
    - eexists [_; _]. unfold log. simpl. split; [by rewrite <- app_assoc|].
      by rewrite Hacc. }
  destruct k as [|k'].
  - inversion Ht; subst. exists out, w'. eexists _, _. split; [reflexivity|].
    split; [exact Hreq|]. done.
  - destruct (turns_last username vt k' _ _ Ht) as (s_prev & r & Hp & Hr & Hafter & Hstop).
    destruct (page_next_after (text r)) as [c|] eqn:Ec;
      [|exfalso; apply Hstop; by left].
    pose proof (page_next_after_truthy _ _ Ec) as Hc.
    rewrite Hafter in Hreq. simpl in Hreq. rewrite Hc in Hreq.
    exists out, w'. eexists _, _. split; [reflexivity|]. split; [exact Hreq|].
    exists s_prev, r, c. done.
Qed.

Lemma pagination_request_targets_witness :
  ∃ out w' url params,
    fetch_page "bob" UPVOTED (scan_after (scan_after_turns 1 "bob" UPVOTED demo_world))
      (scan_all (scan_after_turns 1 "bob" UPVOTED demo_world))
      (scan_world (scan_after_turns 1 "bob" UPVOTED demo_world)) = (out, w')
    ∧ (∃ new, trace w' = trace (scan_world (scan_after_turns 1 "bob" UPVOTED demo_world))
                         ++ new
              ∧ requests new = [GET url params (Some html_accept)])
    ∧ ∃ s_prev r c,
        turns 0 "bob" UPVOTED (first_turn demo_world) = Some s_prev
        ∧ page_response "bob" UPVOTED s_prev = Some r
        ∧ page_next_after (text r) = Some c
        ∧ Py.truthy_str c = true
        ∧ url = more_posts_url UPVOTED
        ∧ params = [("after", c); ("name", "bob")].
Proof.
  apply (pagination_request_targets 1 "bob" UPVOTED demo_world).
  vm_compute. reflexivity.
Defined.

(** X9.  When pagination stops on a page, what discovery returns is
    the set of the identifiers that the identifier pattern finds on the
    pages fetched, the last one included: an identifier shown on
    several pages is in it once, and nothing else is. *)
Theorem discovery_returns_page_identifiers k fuel self username vt w s r :
  turns k username vt (first_turn w) = Some s →
  page_response username vt s = Some r →
  status_code r ≠ 404%Z →
  raises_for_status r = false →
  stop_condition r (scan_after s) →
  k < fuel →
  ∃ ids w1,
    _get_voted_posts fuel self username vt w = (Returned ids, w1)
    ∧ ∀ p, p ∈ ids ↔
           ∃ html, html ∈ pages_scanned k username vt (first_turn w) ++ [text r]
                   ∧ p ∈ Re.findall POST_ID_PATTERN html.
Proof.
  intros Ht Hr H404 Hraise Hstop Hk. apply Z.eqb_neq in H404.
  pose proof (fetch_page_spec username vt s) as Hf.
  apply should_break_iff in Hstop. rewrite Hr, H404, Hraise, Hstop in Hf.
  eexists _, _.
  split; [exact (get_voted_posts_halts k fuel self username vt w s _ _ Ht Hf Hk)|].
  destruct (turns_accumulate username vt k _ _ Ht) as (Hall & _ & _).
  simpl in Hall. intros p. rewrite Hall. unfold page_post_ids.
  rewrite !elem_of_union, elem_of_union_list, elem_of_list_to_set. split.
  - intros [[H|(X & HX & Hp)]|Hp].
    + set_solver.
    + apply list_elem_of_fmap in HX as (html & -> & Hin).
      exists html. split; [apply elem_of_app; by left|].
      unfold page_post_ids in Hp. by apply elem_of_list_to_set in Hp.
    + exists (text r). split; [apply elem_of_app; right; by apply list_elem_of_singleton|done].
  - intros (html & Hin & Hp). apply elem_of_app in Hin as [Hin|Hin].
    + left. right. exists (page_post_ids html).
      split; [apply list_elem_of_fmap; by exists html|].
      unfold page_post_ids. by apply elem_of_list_to_set.
    + apply list_elem_of_singleton in Hin. subst html. by right.
Qed.

Lemma discovery_returns_page_identifiers_witness :
  ∃ ids w1,
    _get_voted_posts 5 demo_self "bob" UPVOTED demo_world = (Returned ids, w1)
    ∧ ∀ p, p ∈ ids ↔
           ∃ html, html ∈ pages_scanned 1 "bob" UPVOTED (first_turn demo_world)
                          ++ [text (html_response 200 demo_page2)]
                   ∧ p ∈ Re.findall POST_ID_PATTERN html.
Proof.
  apply (discovery_returns_page_identifiers 1 5 demo_self "bob" UPVOTED demo_world
           (scan_after_turns 1 "bob" UPVOTED demo_world) (html_response 200 demo_page2)).
  - vm_compute. reflexivity.
  - vm_compute. reflexivity.
  - simpl. lia.
  - reflexivity.
  - left. vm_compute. reflexivity.
  - lia.
Defined.

(** ** The callback cannot alter a pass *)






(** ** The stream of progress events *)







(** ** What the patterns can extract *)

Lemma str_app_assoc (s1 s2 s3 : string) : (s1 +:+ s2) +:+ s3 = s1 +:+ (s2 +:+ s3).
Proof.
  induction s1 as [|c s1 IH]; [done|].
  change (String c ((s1 +:+ s2) +:+ s3) = String c (s1 +:+ (s2 +:+ s3))). by rewrite IH.
Qed.

Lemma str_app_length (s1 s2 : string) :
  String.length (s1 +:+ s2) = String.length s1 + String.length s2.
Proof.
  induction s1 as [|c s1 IH]; [done|].
  change (S (String.length (s1 +:+ s2)) = S (String.length s1 + String.length s2)).
  by rewrite IH.
Qed.

Lemma take_length_app (pre rest : string) :
  Py.take (String.length pre) (pre +:+ rest) = pre.
Proof.
  induction pre as [|c pre IH]; [by destruct rest|].
  change (String c (Py.take (String.length pre) (pre +:+ rest)) = String c pre).
  by rewrite IH.
Qed.

Lemma take_app_exact (pre rest : string) :
  Py.take (String.length (pre +:+ rest) - String.length rest) (pre +:+ rest) = pre.
Proof.
  rewrite str_app_length.
  replace (String.length pre + String.length rest - String.length rest)
    with (String.length pre) by lia.
  apply take_length_app.
Qed.

(** The matcher finds only texts of the pattern, and what it keeps as
    group 1 is a text of a group of the pattern. *)
Lemma matches_sound r : ∀ s cap k x,
  Re.matches r s cap k = Some x →
  ∃ pre rest cap',
    s = pre +:+ rest ∧ re_lang r pre ∧ k rest cap' = Some x
    ∧ ((cap' = cap ∧ always_captures r = false)
       ∨ ∃ g r1, r1 ∈ groups r ∧ re_lang r1 g ∧ cap' = Some g).
Proof.
  induction r as [|p|r1 IH1 r2 IH2|r1 IH1 r2 IH2|r1 IH1|r1 IH1]; intros s cap k x H.
  - simpl in H. exists EmptyString, s, cap. split; [done|]. split; [constructor|].
    split; [done|by left].
  - simpl in H. destruct s as [|c s']; [done|]. destruct (p c) eqn:E; [|done].
    exists (String c EmptyString), s', cap. split; [done|].
    split; [by constructor|]. split; [done|by left].
  - simpl in H. apply IH1 in H as (pre1 & s1 & cap1 & -> & L1 & H & C1).
    apply IH2 in H as (pre2 & s2 & cap2 & -> & L2 & H & C2).
    exists (pre1 +:+ pre2), s2, cap2. split; [by rewrite str_app_assoc|].
    split; [by constructor|]. split; [done|]. simpl.
    destruct C2 as [[-> A2]|(g & r & Hin & Hg & ->)].
    + destruct C1 as [[-> A1]|(g & r & Hin & Hg & ->)].
      * left. by rewrite A1, A2.
      * right. exists g, r. split; [apply elem_of_app; by left|done].
    + right. exists g, r. split; [apply elem_of_app; by right|done].
  - simpl in H. destruct (Re.matches r1 s cap k) eqn:E.
    + inversion H; subst. apply IH1 in E as (pre & rest & cap' & -> & L & E & C).
      exists pre, rest, cap'. split; [done|]. split; [by apply lang_alt_l|].
      split; [done|]. simpl. destruct C as [[-> A]|(g & r & Hin & Hg & ->)].
      * left. by rewrite A.
      * right. exists g, r. split; [apply elem_of_app; by left|done].
    + apply IH2 in H as (pre & rest & cap' & -> & L & H & C).
      exists pre, rest, cap'. split; [done|]. split; [by apply lang_alt_r|].
      split; [done|]. simpl. destruct C as [[-> A]|(g & r & Hin & Hg & ->)].
      * left. rewrite A. split; [done|apply andb_false_r].
      * right. exists g, r. split; [apply elem_of_app; by right|done].
  - simpl in H. revert H. generalize (String.length s) at 1. intros n.
    revert s cap. induction n as [|n IHn]; intros s cap H.
    + simpl in H. exists EmptyString, s, cap. split; [done|].
      split; [constructor|]. split; [done|by left].
    + simpl in H. match type of H with
      | match ?m with _ => _ end = _ => destruct m eqn:E
      end.
      * inversion H; subst. apply IH1 in E as (pre1 & s1 & cap1 & -> & L1 & E & C1).
        destruct (String.length s1 <? String.length (pre1 +:+ s1))%nat; [|done].
        apply IHn in E as (pre2 & s2 & cap2 & -> & L2 & E & C2).
        exists (pre1 +:+ pre2), s2, cap2. split; [by rewrite str_app_assoc|].
        split; [by constructor|]. split; [done|]. simpl.
        destruct C2 as [[-> _]|(g & r & Hin & Hg & ->)].
        -- destruct C1 as [[-> _]|(g & r & Hin & Hg & ->)]; [by left|].
           right. by exists g, r.
        -- right. by exists g, r.
      * exists EmptyString, s, cap. split; [done|].
        split; [constructor|]. split; [done|by left].
  - simpl in H. apply IH1 in H as (pre & rest & cap' & -> & L & H & _).
    rewrite take_app_exact in H.
    exists pre, rest, (Some pre). split; [done|]. split; [by constructor|].
    split; [done|]. right. exists pre, r1. split; [by apply list_elem_of_singleton|done].
Qed.


Lemma search_found r s : ∀ cap rest,
  Re.search r s = Some (cap, rest) →
  ∃ s', Re.match_here r s' = Some (cap, rest).
Proof.
  induction s as [|c s IH]; intros cap rest H; simpl in H.
  - destruct (Re.match_here r EmptyString) eqn:E; [|done]. inversion H; subst. eauto.
  - destruct (Re.match_here r (String c s)) eqn:E.
    + inversion H; subst. eauto.
    + by apply IH in H.
Qed.

Lemma match_here_group r g0 s cap rest :
  always_captures r = true → groups r = [g0] →
  Re.match_here r s = Some (cap, rest) →
  ∃ g, cap = Some g ∧ re_lang g0 g.
Proof.
  intros Ha Hg H. unfold Re.match_here in H.
  apply matches_sound in H as (pre & rest' & cap' & _ & _ & H & C).
  inversion H; subst. destruct C as [[_ A]|(g & r1 & Hin & Hl & ->)]; [congruence|].
  rewrite Hg in Hin. apply list_elem_of_singleton in Hin. subst. eauto.
Qed.

Lemma lit_i_lang l : ∀ s, re_lang (Re.lit_i l) s → str_lower s = str_lower l.
Proof.
  induction l as [|c l IH]; intros s H; simpl in H.
  - by inversion H.
  - inversion H as [| |? ? s1 s2 H1 H2| | | | |]; subst.
    inversion H1 as [|? a Ha| | | | | |]; subst. simpl.
    unfold Re.is_chr_i, Py.ascii_eqb in Ha. apply bool_decide_eq_true in Ha.
    rewrite Ha. f_equal. by apply IH.
Qed.


Lemma lower_keeps_non_letters a :
  let n := Py.code (Py.lower a) in
  ((97 <=? n) && (n <=? 122))%N = false → Py.lower a = a.
Proof.
  destruct a as [[] [] [] [] [] [] [] []]; vm_compute; intros H;
    first [reflexivity | discriminate H].
Qed.



Lemma permalink_group_path short g :
  re_lang (permalink_group short) g →
  str_lower (Py.take 3 g) = "/r/" ∧ Py.startswith "/" g = true.
Proof.
  unfold permalink_group. intros Hg.
  inversion Hg as [| |? ? s1 s2 H1 H2| | | | |]; subst.
  pose proof (lit_i_lang "/r/" _ H1) as Hlow.
  destruct s1 as [|c1 [|c2 [|c3 [|c4 s1]]]]; try discriminate Hlow.
  change (str_lower (String c1 (String c2 (String c3 EmptyString))) = "/r/"
          ∧ Py.ascii_eqb "/" c1 && true = true).
  split; [exact Hlow|].
  injection Hlow as Hc1 _ _.
  rewrite <- (lower_keeps_non_letters c1) by (by rewrite Hc1).
  by rewrite Hc1.
Qed.

Lemma resolve_one_shape html m p :
  ∀ q v, resolve_one html m p !! q = Some v →
    m !! q = Some v
    ∨ (q = p ∧ ∃ g, v = "https://www.reddit.com" +:+ g
                    ∧ re_lang (permalink_group (Py.drop 3 p)) g).
Proof.
  intros q v. unfold resolve_one.
  destruct (Re.search (permalink_pattern (Py.drop 3 p)) html) as [[cap rest]|] eqn:E;
    [|by left].
  apply search_found in E as (s' & E).
  apply (match_here_group _ (permalink_group (Py.drop 3 p))) in E as (g & -> & Hg);
    [|reflexivity|reflexivity].
  simpl default. destruct (permalink_group_path _ _ Hg) as [_ Hs]. rewrite Hs.
  destruct (decide (p = q)) as [->|Hne].
  - rewrite lookup_insert_eq. intros [= <-]. right. eauto.
  - rewrite lookup_insert_ne by done. by left.
Qed.

(** X13.  The permalink pass can only map a discovered identifier, and
    only to [https://www.reddit.com] followed by a path that begins
    with [/r/] (in either case) and fits the comments pattern for that
    identifier; and it maps something only if its one GET, to the
    listing of the user, was answered with status 200.  In every other
    case the map is empty. *)
Theorem resolved_permalink_shape username vt ids w m w' :
  resolve_permalinks username vt ids w = (Returned m, w') →
  ∀ p v, m !! p = Some v →
    p ∈ ids
    ∧ (∃ r, network w (requests_made w) (GET (voted_url username vt) [] (accept_header w))
            = Some r ∧ status_code r = 200%Z)
    ∧ ∃ g, v = "https://www.reddit.com" +:+ g
           ∧ str_lower (Py.take 3 g) = "/r/"
           ∧ re_lang (permalink_group (Py.drop 3 p)) g.
Proof.
  unfold resolve_permalinks.
  destruct (bool_decide (ids ≠ ∅) && Py.truthy_str username);
    [|intros [= <- <-] p v H; by rewrite lookup_empty in H].
  unfold bind, session_get, send.
  destruct (network w (requests_made w) _) as [r|] eqn:N;
    [|intros [= <- <-] p v H; by rewrite lookup_empty in H].
  destruct (status_code r =? 200)%Z eqn:E;
    [|intros [= <- <-] p v H; by rewrite lookup_empty in H].
  apply Z.eqb_eq in E. intros [= <- <-] p v.
  assert (Hinv : ∀ l m0,
            (∀ x, x ∈ l → x ∈ ids) →
            (∀ q u, m0 !! q = Some u →
               q ∈ ids ∧ ∃ g, u = "https://www.reddit.com" +:+ g
                              ∧ re_lang (permalink_group (Py.drop 3 q)) g) →
            ∀ q u, foldl (resolve_one (text r)) m0 l !! q = Some u →
               q ∈ ids ∧ ∃ g, u = "https://www.reddit.com" +:+ g
                              ∧ re_lang (permalink_group (Py.drop 3 q)) g).
  { induction l as [|x l IH]; intros m0 Hl Hm0; [exact Hm0|].
    simpl. apply IH; [intros y Hy; apply Hl; by right|].
    intros q u Hq. apply resolve_one_shape in Hq as [Hq|[-> Hq]].
    - by apply Hm0.
    - split; [apply Hl; by left|exact Hq]. }
  intros Hlook.
  apply (Hinv (elements ids) ∅) in Hlook as (Hin & g & -> & Hg).
  - split; [exact Hin|]. split; [eauto|]. exists g. split; [done|].
    split; [by apply (permalink_group_path _ _ Hg)|exact Hg].
  - intros x. apply elem_of_elements.
  - intros q u H. by rewrite lookup_empty in H.
Qed.

Lemma resolved_permalink_shape_witness :
  ∃ m w',
    resolve_permalinks "bob" UPVOTED (discovered 5 demo_self "bob" UPVOTED demo_world)
      (after_discovery 5 demo_self "bob" UPVOTED demo_world) = (Returned m, w')
    ∧ m !! "t3_abc" = Some "https://www.reddit.com/r/pics/comments/abc/title/"
    ∧ "t3_abc" ∈ discovered 5 demo_self "bob" UPVOTED demo_world
    ∧ ∃ g, "https://www.reddit.com/r/pics/comments/abc/title/"
           = "https://www.reddit.com" +:+ g
           ∧ str_lower (Py.take 3 g) = "/r/".
Proof.
  eexists _, _. split; [reflexivity|].
  split; [vm_compute; reflexivity|].
  destruct (resolved_permalink_shape "bob" UPVOTED
              (discovered 5 demo_self "bob" UPVOTED demo_world)
              (after_discovery 5 demo_self "bob" UPVOTED demo_world) _ _ eq_refl
              "t3_abc" "https://www.reddit.com/r/pics/comments/abc/title/")
    as (Hin & _ & g & Hv & Hlow & _).
  - vm_compute. reflexivity.
  - split; [exact Hin|]. exists g. split; [exact Hv|exact Hlow].
Defined.

(** ** The job entry point *)



(** X15.  A job for [both] runs the upvoted pass to its end, then the
    downvoted pass in the world the first one left, and completes with
    the statistics of the downvoted pass alone: what the upvoted pass
    removed is in its own events, not in the result. *)
Theorem job_for_both_reports_second_pass fuel cookie_string username delay f w
    self w0 st_up w1 st_down w2 :
  __init__ cookie_string ∅ w = (Returned self, w0) →
  remove_votes fuel self username UPVOTED delay (Some f) w0 = (Returned st_up, w1) →
  remove_votes fuel self username DOWNVOTED delay (Some f) w1 = (Returned st_down, w2) →
  f {| message := all_done_message; status := "success";
       ev_stats := st_down; ev_item := None |} = true →
  process fuel cookie_string username "both" delay f w
  = (Returned (Complete st_down),
     log (Progress {| message := all_done_message; status := "success";
                      ev_stats := st_down; ev_item := None |}) w2).
Proof.
  intros Hinit Hup Hdown Hf. unfold process, catch.
  rewrite (bind_returned _ _ _ _ _ Hinit).
  rewrite !bool_decide_eq_true_2 by set_solver.
  rewrite (bind_returned _ _ _ (Some st_up) w1)
    by (by rewrite (bind_returned _ _ _ _ _ Hup)).
  rewrite (bind_returned _ _ _ (Some st_down) w2)
    by (by rewrite (bind_returned _ _ _ _ _ Hdown)).
  simpl default. unfold bind, emit. simpl. by rewrite Hf.
Qed.

Lemma job_for_both_reports_second_pass_witness :
  process 5 "csrf_token=tok; theme=dark" "bob" "both" (1 # 2) (fun _ => true)
    (initial_world demo_network)
  = (Returned (Complete (returned_stats demo_down)),
     log (Progress {| message := all_done_message; status := "success";
                      ev_stats := returned_stats demo_down; ev_item := None |})
       demo_down.2)
  ∧ total (returned_stats demo_up) = 3
  ∧ returned_stats demo_down = no_stats.
Proof.
  split; [|split; vm_compute; reflexivity].
  apply (job_for_both_reports_second_pass 5 "csrf_token=tok; theme=dark" "bob" (1 # 2)
           (fun _ => true) (initial_world demo_network) demo_self demo_world
           (returned_stats demo_up) demo_up.2).
  - reflexivity.
  - vm_compute. reflexivity.
  - vm_compute. reflexivity.
  - reflexivity.
Defined.

(** ** The command line of the script *)

(** X16.  [main] leaves the world untouched, no request and no
    session set up, unless it was given five answers: cookies and a
    user name that are not empty once trimmed, a choice among 1, 2 and
    3, a delay, and a last answer that reads [yes] in some mix of
    cases. *)
Theorem main_acts_only_when_confirmed fuel stdin w out w' :
  Cli.main fuel stdin w = (out, w') →
  w' ≠ w →
  ∃ line1 line2 line3 line4 line5 rest,
    stdin = line1 :: line2 :: line3 :: line4 :: line5 :: rest
    ∧ Py.strip line1 ≠ EmptyString
    ∧ Py.replace "u/" EmptyString (Py.strip line2) ≠ EmptyString
    ∧ Py.strip line3 ∈ ["1"; "2"; "3"]
    ∧ str_lower line5 = "yes".
Proof.
  unfold Cli.main, raise, ret. intros H Hw.
  destruct stdin as [|line1 stdin]; [by inversion H|].
  destruct (Py.truthy_str (Py.strip line1)) eqn:E1; simpl in H; [|by inversion H].
  destruct stdin as [|line2 stdin]; [by inversion H|].
  destruct (Py.truthy_str (Py.replace "u/" "" (Py.strip line2))) eqn:E2; simpl in H;
    [|by inversion H].
  destruct stdin as [|line3 stdin]; [by inversion H|].
  case_bool_decide as E3; simpl in H; [|by inversion H].
  destruct stdin as [|line4 stdin]; [by inversion H|].
  destruct (if Py.truthy_str (Py.strip line4)
               && str_isdigit (Py.replace "." "" (Py.strip line4))
            then py_float (Py.strip line4) else Some (1 # 2)) as [delay|];
    [|by inversion H].
  destruct stdin as [|line5 stdin]; [by inversion H|].
  case_bool_decide as E5; simpl in H; [|by inversion H].
  exists line1, line2, line3, line4, line5, stdin.
  split; [done|]. split; [by destruct (Py.strip line1)|].
  split; [by destruct (Py.replace "u/" "" (Py.strip line2))|done].
Qed.

Lemma main_acts_only_when_confirmed_witness :
  ∃ line1 line2 line3 line4 line5 rest,
    ["csrf_token=tok"; "u/bob"; " 1 "; "0.1"; "YES"]
    = line1 :: line2 :: line3 :: line4 :: line5 :: rest
    ∧ Py.strip line1 ≠ EmptyString
    ∧ Py.replace "u/" EmptyString (Py.strip line2) ≠ EmptyString
    ∧ Py.strip line3 ∈ ["1"; "2"; "3"]
    ∧ str_lower line5 = "yes".
Proof.
  apply (main_acts_only_when_confirmed 5 ["csrf_token=tok"; "u/bob"; " 1 "; "0.1"; "YES"]
           (initial_world demo_network) demo_cli.1 demo_cli.2).
  - vm_compute. reflexivity.
  - intros H. apply (f_equal requests_made) in H. vm_compute in H. discriminate H.
Defined.

(** X17.  [main] converts the delay before it asks for confirmation,
    and outside its [try]: an answer that passes its digit test but
    that [float] rejects, two dots or a superscript digit, makes it
    end with the [ValueError], nothing sent and no confirmation
    asked. *)
Theorem main_raises_on_malformed_delay fuel line1 line2 line3 line4 rest w :
  Py.strip line1 ≠ EmptyString →
  Py.replace "u/" EmptyString (Py.strip line2) ≠ EmptyString →
  Py.strip line3 ∈ ["1"; "2"; "3"] →
  str_isdigit (Py.replace "." EmptyString (Py.strip line4)) = true →
  py_float (Py.strip line4) = None →
  Cli.main fuel (line1 :: line2 :: line3 :: line4 :: rest) w = (Raised, w).
Proof.
  intros H1 H2 H3 H4 H5. unfold Cli.main.
  replace (Py.truthy_str (Py.strip line1)) with true by (by destruct (Py.strip line1)).
  replace (Py.truthy_str (Py.replace "u/" "" (Py.strip line2))) with true
    by (by destruct (Py.replace "u/" "" (Py.strip line2))).
  rewrite bool_decide_eq_true_2 by exact H3. simpl negb. cbv iota.
  replace (Py.truthy_str (Py.strip line4)) with true.
  - rewrite H4, H5. reflexivity.
  - destruct (Py.strip line4); [|reflexivity]. discriminate H4.
Qed.

Lemma main_raises_on_malformed_delay_witness :
  Cli.main 5 ["csrf_token=tok"; "bob"; "3"; "1.2.3"; "yes"] (initial_world demo_network)
  = (Raised, initial_world demo_network).
Proof.
  apply (main_raises_on_malformed_delay 5 "csrf_token=tok" "bob" "3" "1.2.3" ["yes"]);
    [discriminate|discriminate| |reflexivity|reflexivity].
  rewrite !elem_of_cons. auto.
Defined.


